(** * Patient data export: CSV tables and the zip archive

    A shallow embedding of [DefaultExportService] (the export service of the
    functions package): the CSV field encoder and table builder, the
    per-category row projectors, the questionnaire leaf collection and the
    orchestration that fills one zip archive per export call.

    JavaScript strings are modelled as [string]; a value that may be
    [undefined] at run time is an [option]; an exception is the [Throw]
    case of [result]. *)

From Stdlib Require Import String Ascii List Bool Arith Lia.
Import ListNotations.
Local Open Scope list_scope.
Local Open Scope string_scope.

(** ** Run-time values and exceptions *)

Inductive JsError : Type :=
| HttpsError (code message : string)
| TypeError
| RangeError
| StoreError (what : string)
| WriterError (what : string).

Inductive result (A : Type) : Type :=
| Ok (a : A)
| Throw (e : JsError).

Arguments Ok {A} a.
Arguments Throw {A} e.

Definition bind {A B : Type} (r : result A) (k : A -> result B) : result B :=
  match r with
  | Ok a => k a
  | Throw e => Throw e
  end.

Notation "x <- r ;; k" := (bind r (fun x => k))
  (at level 61, r at next level, right associativity).

(** [xs.map(f)] where [f] may throw: elements are visited left to right and
    the first exception ends the traversal. *)
Fixpoint mapM {A B : Type} (f : A -> result B) (xs : list A) : result (list B) :=
  match xs with
  | [] => Ok []
  | x :: xs' => y <- f x ;; ys <- mapM f xs' ;; Ok (y :: ys)
  end.

(** A table cell as the row callbacks produce it: a string, or [undefined]
    when an array was indexed out of range or a property was absent. *)
Definition cell : Type := option string.

(** [String(v)] for a cell, as [RegExp.prototype.test] and [+] apply it. *)
Definition ToString (c : cell) : string :=
  match c with
  | Some s => s
  | None => "undefined"
  end.

(** [v ?? empty]: the text of a cell, empty for [undefined]. *)
Definition orEmpty (c : cell) : string :=
  match c with
  | Some s => s
  | None => ""
  end.

(** [Array.prototype.join]: [undefined] elements contribute the empty
    string. *)
Definition join (sep : string) (cells : list cell) : string :=
  String.concat sep (map orEmpty cells).

Definition dquote : ascii := ascii_of_nat 34.
Definition newline : ascii := ascii_of_nat 10.
Definition semicolon : ascii := ";"%char.

Fixpoint string_existsb (p : ascii -> bool) (s : string) : bool :=
  match s with
  | EmptyString => false
  | String c s' => p c || string_existsb p s'
  end.

Definition ascii_in (cs : list ascii) (c : ascii) : bool :=
  existsb (Ascii.eqb c) cs.

(** ** The field encoder and the table builder *)

Definition formulaChars : list ascii := ["="; "+"; "-"; "@"]%char.
Definition specialChars : list ascii := [semicolon; newline; dquote].

(** [/^[=+\-@]/.test(field)]: the first character is one of the four. *)
Definition test_formula_prefix (field : cell) : bool :=
  match ToString field with
  | String c _ => ascii_in formulaChars c
  | EmptyString => false
  end.

(** The test of [field] against the character class of semicolon, line
    feed and double quote. *)
Definition test_special (field : cell) : bool :=
  string_existsb (ascii_in specialChars) (ToString field).

(** The global [replace] that doubles every double quote of [s]. *)
Fixpoint double_quotes (s : string) : string :=
  match s with
  | EmptyString => EmptyString
  | String c s' =>
      if Ascii.eqb c dquote
      then String dquote (String dquote (double_quotes s'))
      else String c (double_quotes s')
  end.

Definition wrap_quotes (s : string) : string :=
  String dquote (double_quotes s ++ String dquote EmptyString).

(** [escapeCsvField]. The parameter is typed [string], but the medication
    projector hands it [undefined] cells; on those [test] sees the text
    ["undefined"], and [field.replace] would be a [TypeError]. *)
Definition escapeCsvField (field : cell) : result cell :=
  let field :=
    if test_formula_prefix field then Some ("'" ++ ToString field) else field in
  if test_special field then
    match field with
    | Some s => Ok (Some (wrap_quotes s))
    | None => Throw TypeError
    end
  else Ok field.

(** [createCsvBuffer]: the buffer is modelled by the string it is made
    from. *)
Definition createCsvBuffer {T : Type}
    (headers : list cell) (values : list T) (row : T -> result (list cell))
    : result string :=
  header <- mapM escapeCsvField headers ;;
  lines <- mapM (fun item =>
                   cells <- row item ;;
                   fields <- mapM escapeCsvField cells ;;
                   Ok (Some (join ";" fields))) values ;;
  Ok (join (String newline EmptyString) (Some (join ";" header) :: lines)).

(** ** JavaScript helpers used by the projectors *)

(** [s.split(sep)] for a one-character separator; the empty string splits
    into one empty segment. *)
Fixpoint split (sep : ascii) (s : string) : list string :=
  match s with
  | EmptyString => [EmptyString]
  | String c s' =>
      if Ascii.eqb c sep then EmptyString :: split sep s'
      else match split sep s' with
           | [] => [String c EmptyString]
           | seg :: segs => String c seg :: segs
           end
  end.

(** [xs[i]]: [undefined] out of range. *)
Definition elem {A : Type} (xs : list A) (i : nat) : option A := nth_error xs i.

(** [xs.at(0)] *)
Definition at0 {A : Type} (xs : list A) : option A := hd_error xs.

(** [o?.f] where [f] is itself optional. *)
Definition chain {A B : Type} (o : option A) (f : A -> option B) : option B :=
  match o with
  | Some a => f a
  | None => None
  end.

Notation "o ?. f" := (chain o f) (at level 50, left associativity).

(** A number is observed by this service only through [toString()]; it is
    modelled by its canonical decimal text. *)
Record JsNumber : Type := { decimalText : string }.

Definition number_toString (n : JsNumber) : string := decimalText n.

(** A [Date] is observed only through [toISOString()], which throws a
    [RangeError] on an invalid date. *)
Inductive JsDate : Type :=
| ValidDate (iso : string)
| InvalidDate.

Definition toISOString (d : JsDate) : result string :=
  match d with
  | ValidDate iso => Ok iso
  | InvalidDate => Throw RangeError
  end.

(** [o.toISOString()] on a property that may be absent: calling a method of
    [undefined] is a [TypeError]. *)
Definition required_toISOString (o : option JsDate) : result string :=
  match o with
  | Some d => toISOString d
  | None => Throw TypeError
  end.

(** [o.toString()] on a numeric property that may be absent. *)
Definition required_toString (o : option JsNumber) : result string :=
  match o with
  | Some n => Ok (number_toString n)
  | None => Throw TypeError
  end.

(** [o?.toISOString() ?? empty] *)
Definition optional_toISOString (o : option JsDate) : result string :=
  match o with
  | Some d => toISOString d
  | None => Ok EmptyString
  end.

(** [o?.toString() ?? empty] *)
Definition optional_toString (o : option JsNumber) : string :=
  match o with
  | Some n => number_toString n
  | None => EmptyString
  end.

(** ** The records read from the store *)

Record Document (T : Type) : Type := { id : string; content : T }.
Arguments id {T} _.
Arguments content {T} _.

Record User : Type := { organization : option string }.

Record FHIRCoding : Type := { code : option string; display : option string }.

Record FHIRQuantity : Type :=
  { quantity_value : option JsNumber; quantity_unit : option string }.

Record FHIRQuestionnaireItemAnswerOption : Type :=
  { valueCoding : option FHIRCoding }.

(** A questionnaire item: the [item] field is the optional list of child
    items. *)
#[local] Unset Elimination Schemes.
Inductive FHIRQuestionnaireItem : Type :=
| QuestionnaireItem
    (linkId text type : option string)
    (answerOption : option (list FHIRQuestionnaireItemAnswerOption))
    (item : option (list FHIRQuestionnaireItem)).
#[local] Set Elimination Schemes.

Definition linkId (i : FHIRQuestionnaireItem) : option string :=
  match i with QuestionnaireItem l _ _ _ _ => l end.
Definition text (i : FHIRQuestionnaireItem) : option string :=
  match i with QuestionnaireItem _ t _ _ _ => t end.
Definition type (i : FHIRQuestionnaireItem) : option string :=
  match i with QuestionnaireItem _ _ t _ _ => t end.
Definition answerOption (i : FHIRQuestionnaireItem)
    : option (list FHIRQuestionnaireItemAnswerOption) :=
  match i with QuestionnaireItem _ _ _ a _ => a end.
Definition item (i : FHIRQuestionnaireItem) : option (list FHIRQuestionnaireItem) :=
  match i with QuestionnaireItem _ _ _ _ c => c end.

Record FHIRQuestionnaire : Type :=
  { questionnaire_item : option (list FHIRQuestionnaireItem) }.

(** The fields [created], [start] and [end] are declared required; they are
    options here so that a record lacking one can be projected. *)
Record FHIRAppointment : Type :=
  { status : option string;
    created : option JsDate;
    start : option JsDate;
    end_ : option JsDate }.

(** Modelled from the spec: [localize()], a method of the models package,
    resolves the localizable title to a display string at export time; the
    title is carried as that string. *)
Record UserMessage : Type :=
  { message_type : string;
    title_localized : string;
    action : option string;
    message_reference : option string;
    creationDate : JsDate;
    completionDate : option JsDate;
    dueDate : option JsDate }.

Record FHIRReference : Type := { reference : option string }.

Record FHIRDoseAndRate : Type := { doseQuantity : option FHIRQuantity }.
Record FHIRTimingRepeat : Type := { frequency : option JsNumber }.
Record FHIRTiming : Type := { repeat_ : option FHIRTimingRepeat }.
Record FHIRDosage : Type :=
  { doseAndRate : option (list FHIRDoseAndRate);
    timing : option FHIRTiming }.

Record FHIRMedicationRequest : Type :=
  { medicationReference : option FHIRReference;
    dosageInstruction : option (list FHIRDosage) }.

Record FHIRCodeableConcept : Type := { coding : option (list FHIRCoding) }.

Record FHIRObservationComponent : Type :=
  { component_code : FHIRCodeableConcept;
    component_valueQuantity : option FHIRQuantity }.

Record FHIRObservation : Type :=
  { component : option (list FHIRObservationComponent);
    valueQuantity : option FHIRQuantity;
    effectiveDateTime : option JsDate }.

Record FHIRQuestionnaireResponseItemAnswer : Type :=
  { answer_valueCoding : option FHIRCoding }.
Record FHIRQuestionnaireResponseItem : Type :=
  { answer : option (list FHIRQuestionnaireResponseItemAnswer) }.

(** [leafResponseItem(linkId)], the leaf lookup by link id, is a method of
    the models package; a response carries it as a parameter, the lookup
    function itself. *)
Record FHIRQuestionnaireResponse : Type :=
  { questionnaire : option string;
    leafResponseItem : string -> option FHIRQuestionnaireResponseItem;
    authored : option JsDate }.

(** [overallScore], [dizzinessScore] and [date] are declared required; they
    are options here so that a record lacking one can be projected. *)
Record SymptomScore : Type :=
  { overallScore : option JsNumber;
    physicalLimitsScore : option JsNumber;
    socialLimitsScore : option JsNumber;
    symptomFrequencyScore : option JsNumber;
    qualityOfLifeScore : option JsNumber;
    dizzinessScore : option JsNumber;
    date : option JsDate;
    questionnaireResponseId : option string }.

(** ** Row projectors *)

(** Constants of the models package and of the seeding data that the
    service refers to by name. *)
Record StaticData : Type :=
  { LoincCode_systolicBloodPressure : string;
    LoincCode_diastolicBloodPressure : string;
    UserObservationCollection_values : list string;
    UserObservationCollection_bloodPressure : string;
    kccq_url : string;
    question1a : string; question1b : string; question1c : string;
    question2 : string; question3 : string; question4 : string;
    question5 : string; question6 : string; question7 : string;
    question8a : string; question8b : string; question8c : string;
    question9 : string }.

Definition text_cells (ss : list string) : list cell := map Some ss.

Fixpoint leafItems (i : FHIRQuestionnaireItem) : list FHIRQuestionnaireItem :=
  match i with
  | QuestionnaireItem _ _ _ _ children =>
      match children with
      | None => [i]
      | Some cs =>
          if Nat.eqb (List.length cs) 0 then [i]
          else flat_map leafItems cs
      end
  end.

Definition questionnaireItems (q : FHIRQuestionnaire) : list FHIRQuestionnaireItem :=
  flat_map leafItems (match questionnaire_item q with Some xs => xs | None => [] end).

Definition questionnaireHeaders : list cell :=
  text_cells ["linkId"; "text"; "type"; "options"].

Definition optionLabel (o : FHIRQuestionnaireItemAnswerOption) : cell :=
  Some (orEmpty (valueCoding o ?. display) ++ " ("
        ++ orEmpty (valueCoding o ?. code) ++ ")").

Definition questionnaireRow (value : FHIRQuestionnaireItem) : result (list cell) :=
  let options :=
    join "|" (map optionLabel
                (match answerOption value with Some os => os | None => [] end)) in
  Ok [Some (orEmpty (linkId value)); Some (orEmpty (text value));
      Some (orEmpty (type value)); Some options].

Definition appointmentHeaders : list cell :=
  text_cells ["id"; "status"; "created"; "start"; "end"].

Definition appointmentRow (value : Document FHIRAppointment) : result (list cell) :=
  c <- required_toISOString (created (content value)) ;;
  s <- required_toISOString (start (content value)) ;;
  e <- required_toISOString (end_ (content value)) ;;
  Ok [Some (id value); status (content value); Some c; Some s; Some e].

Definition messageHeaders : list cell :=
  text_cells ["id"; "type"; "title"; "action"; "reference"; "creationDate";
              "completionDate"; "dueDate"].

Definition messageRow (value : Document UserMessage) : result (list cell) :=
  c <- toISOString (creationDate (content value)) ;;
  f <- optional_toISOString (completionDate (content value)) ;;
  d <- optional_toISOString (dueDate (content value)) ;;
  Ok [Some (id value); Some (message_type (content value));
      Some (title_localized (content value));
      Some (orEmpty (action (content value)));
      Some (orEmpty (message_reference (content value)));
      Some c; Some f; Some d].

Definition medicationRequestHeaders : list cell :=
  text_cells ["id"; "medicationCode (RxNorm)"; "drugCode (RxNorm)"; "quantity";
              "quantityUnit"; "frequencyPerDay"].

Definition referenceParts (value : Document FHIRMedicationRequest) : list string :=
  split "/" (orEmpty (medicationReference (content value) ?. reference)).

Definition medicationRequestRow (value : Document FHIRMedicationRequest)
    : result (list cell) :=
  let parts := referenceParts value in
  let quantity :=
    dosageInstruction (content value) ?. at0 ?. doseAndRate ?. at0 ?. doseQuantity in
  let freq :=
    dosageInstruction (content value) ?. at0 ?. timing ?. repeat_ ?. frequency in
  Ok [Some (id value); elem parts 1; elem parts 3;
      Some (optional_toString (quantity ?. quantity_value));
      Some (orEmpty (quantity ?. quantity_unit));
      Some (optional_toString freq)].

Definition bloodPressureHeaders : list cell :=
  text_cells ["id"; "systolicValue"; "systolicUnit"; "diastolicValue";
              "diastolicUnit"; "effectiveDateTime"].

Definition observationHeaders : list cell :=
  text_cells ["id"; "value"; "unit"; "effectiveDateTime"].

(** [component.code.coding?.some(coding => coding.code === loinc)], an
    absent coding list counting as no match. *)
Definition hasCode (loinc : string) (c : FHIRObservationComponent) : bool :=
  match coding (component_code c) with
  | Some cs =>
      existsb (fun k => match code k with
                        | Some t => String.eqb t loinc
                        | None => false
                        end) cs
  | None => false
  end.

Definition findComponent (loinc : string) (o : FHIRObservation)
    : option FHIRObservationComponent :=
  component o ?. find (hasCode loinc).

Definition bloodPressureRow (K : StaticData) (value : Document FHIRObservation)
    : result (list cell) :=
  let systolicComponent :=
    findComponent (LoincCode_systolicBloodPressure K) (content value) in
  let diastolicComponent :=
    findComponent (LoincCode_diastolicBloodPressure K) (content value) in
  d <- optional_toISOString (effectiveDateTime (content value)) ;;
  Ok [Some (id value);
      Some (optional_toString (systolicComponent ?. component_valueQuantity ?. quantity_value));
      Some (orEmpty (systolicComponent ?. component_valueQuantity ?. quantity_unit));
      Some (optional_toString (diastolicComponent ?. component_valueQuantity ?. quantity_value));
      Some (orEmpty (diastolicComponent ?. component_valueQuantity ?. quantity_unit));
      Some d].

Definition observationRow (value : Document FHIRObservation) : result (list cell) :=
  d <- optional_toISOString (effectiveDateTime (content value)) ;;
  Ok [Some (id value);
      Some (optional_toString (valueQuantity (content value) ?. quantity_value));
      Some (orEmpty (valueQuantity (content value) ?. quantity_unit));
      Some d].

Definition kccqHeaders : list cell :=
  text_cells ["id"; "q1a"; "q1b"; "q1c"; "q2"; "q3"; "q4"; "q5"; "q6"; "q7";
              "q8a"; "q8b"; "q8c"; "q9"; "authored"].

Definition answerCode (r : FHIRQuestionnaireResponse) (link : string) : cell :=
  Some (orEmpty (leafResponseItem r link ?. answer ?. at0 ?. answer_valueCoding ?. code)).

Definition kccqRow (K : StaticData) (value : Document FHIRQuestionnaireResponse)
    : result (list cell) :=
  let r := content value in
  a <- optional_toISOString (authored r) ;;
  Ok [Some (id value);
      answerCode r (question1a K); answerCode r (question1b K);
      answerCode r (question1c K); answerCode r (question2 K);
      answerCode r (question3 K); answerCode r (question4 K);
      answerCode r (question5 K); answerCode r (question6 K);
      answerCode r (question7 K); answerCode r (question8a K);
      answerCode r (question8b K); answerCode r (question8c K);
      answerCode r (question9 K); Some a].

Definition symptomScoreHeaders : list cell :=
  text_cells ["id"; "overallScore"; "physicalLimitsScore"; "socialLimitsScore";
              "symptomFrequencyScore"; "qualityOfLifeScore"; "dizzinessScore";
              "date"; "questionnaireResponseId"].

Definition symptomScoreRow (value : Document SymptomScore) : result (list cell) :=
  let c := content value in
  o <- required_toString (overallScore c) ;;
  z <- required_toString (dizzinessScore c) ;;
  d <- required_toISOString (date c) ;;
  Ok [Some (id value); Some o;
      Some (optional_toString (physicalLimitsScore c));
      Some (optional_toString (socialLimitsScore c));
      Some (optional_toString (symptomFrequencyScore c));
      Some (optional_toString (qualityOfLifeScore c));
      Some z; Some d;
      Some (orEmpty (questionnaireResponseId c))].

(** ** The store *)

(** A store call either delivers its documents or rejects; the rejection
    carries the store's own reason and reaches the service as a
    [StoreError]. *)
Definition query (A : Type) : Type := (string + A)%type.

Record Services : Type :=
  { getUser : string -> query (option (Document User));
    getAllPatients : query (list (Document User));
    questionnaires : query (list (Document FHIRQuestionnaire));
    userAppointments : string -> query (list (Document FHIRAppointment));
    userMedicationRequests : string -> query (list (Document FHIRMedicationRequest));
    userMessages : string -> query (list (Document UserMessage));
    userObservations : string -> string -> query (list (Document FHIRObservation));
    userQuestionnaireResponses :
      string -> query (list (Document FHIRQuestionnaireResponse));
    userSymptomScores : string -> query (list (Document SymptomScore)) }.

Definition await {A : Type} (q : query A) : result A :=
  match q with
  | inr a => Ok a
  | inl why => Throw (StoreError why)
  end.

(** ** The archive under construction *)

Record Entry : Type := { name : string; data : string }.

Definition Archive : Type := list Entry.

(** A step of the generator: it may append entries to the archive, and it
    returns or throws. Entries appended before a throw stay in the writer. *)
Definition Task (A : Type) : Type := Archive -> Archive * result A.

Definition ret {A : Type} (a : A) : Task A := fun ar => (ar, Ok a).

Definition lift {A : Type} (r : result A) : Task A := fun ar => (ar, r).

Definition andThen {A B : Type} (t : Task A) (k : A -> Task B) : Task B :=
  fun ar =>
    match t ar with
    | (ar', Ok a) => k a ar'
    | (ar', Throw e) => (ar', Throw e)
    end.

Notation "x <~ t ;; k" := (andThen t (fun x => k))
  (at level 61, t at next level, right associativity).

(** [archiver.append(buffer, { name })] *)
Definition append (buffer : string) (entryName : string) : Task unit :=
  fun ar => ((ar ++ [{| name := entryName; data := buffer |}])%list, Ok tt).

(** [for (const x of xs) { await body(x) }] *)
Fixpoint forEach {A : Type} (xs : list A) (body : A -> Task unit) : Task unit :=
  match xs with
  | [] => ret tt
  | x :: xs' => _ <~ body x ;; forEach xs' body
  end.

(** [await Promise.all(branches)]: every branch runs to its end whether or
    not a sibling throws, and the await throws when some branch threw.
    Branches are taken to complete in array order; the first error in that
    order is the one reported. *)
Fixpoint promiseAll (branches : list (Task unit)) : Task unit :=
  match branches with
  | [] => ret tt
  | b :: bs =>
      fun ar =>
        let '(ar1, r1) := b ar in
        let '(ar2, r2) := promiseAll bs ar1 in
        (ar2, match r1 with
              | Throw e => Throw e
              | Ok _ => r2
              end)
  end.

(** ** The export service *)

Section DefaultExportService.

Variable K : StaticData.
Variable db : Services.

Definition addQuestionnaires : Task unit :=
  qs <~ lift (await (questionnaires db)) ;;
  forEach qs (fun questionnaire =>
    buffer <~ lift (createCsvBuffer questionnaireHeaders
                      (questionnaireItems (content questionnaire))
                      questionnaireRow) ;;
    append buffer ("questionnaire_" ++ id questionnaire ++ ".csv")).

Definition addUserAppointments (userId : string) : Task unit :=
  appointments <~ lift (await (userAppointments db userId)) ;;
  buffer <~ lift (createCsvBuffer appointmentHeaders appointments appointmentRow) ;;
  append buffer (userId ++ "/appointments.csv").

Definition addUserMessages (userId : string) : Task unit :=
  messages <~ lift (await (userMessages db userId)) ;;
  buffer <~ lift (createCsvBuffer messageHeaders messages messageRow) ;;
  append buffer (userId ++ "/messages.csv").

Definition addUserMedicationRequests (userId : string) : Task unit :=
  medications <~ lift (await (userMedicationRequests db userId)) ;;
  buffer <~ lift (createCsvBuffer medicationRequestHeaders medications
                    medicationRequestRow) ;;
  append buffer (userId ++ "/medicationRequests.csv").

Definition addUserObservations (userId collection : string) : Task unit :=
  observations <~ lift (await (userObservations db userId collection)) ;;
  buffer <~ lift
    (if String.eqb collection (UserObservationCollection_bloodPressure K)
     then createCsvBuffer bloodPressureHeaders observations (bloodPressureRow K)
     else createCsvBuffer observationHeaders observations observationRow) ;;
  append buffer (userId ++ "/" ++ collection ++ ".csv").

Definition isKccq (response : Document FHIRQuestionnaireResponse) : bool :=
  match questionnaire (content response) with
  | Some url => String.eqb url (kccq_url K)
  | None => false
  end.

Definition addUserQuestionnaireResponses (userId : string) : Task unit :=
  questionnaireResponses <~ lift (await (userQuestionnaireResponses db userId)) ;;
  let kccqResponses := filter isKccq questionnaireResponses in
  buffer <~ lift (createCsvBuffer kccqHeaders kccqResponses (kccqRow K)) ;;
  append buffer (userId ++ "/questionnaireResponses_kccq.csv").

Definition addUserSymptomScores (userId : string) : Task unit :=
  symptomScores <~ lift (await (userSymptomScores db userId)) ;;
  buffer <~ lift (createCsvBuffer symptomScoreHeaders symptomScores
                    symptomScoreRow) ;;
  append buffer (userId ++ "/symptomScores.csv").

Definition userBranches (userId : string) : list (Task unit) :=
  ([addUserAppointments userId;
    addUserMedicationRequests userId;
    addUserMessages userId]
   ++ map (fun collection => addUserObservations userId collection)
        (UserObservationCollection_values K)
   ++ [addUserQuestionnaireResponses userId;
       addUserSymptomScores userId])%list.

(** The generator handed to [createZipBuffer] by
    [createPatientsZipBuffer]. *)
Definition generatePatients (userIds : list string) : Task unit :=
  _ <~ addQuestionnaires ;;
  forEach userIds (fun userId => promiseAll (userBranches userId)).

End DefaultExportService.

(** ** The zip writer and the promise around it *)

(** What the writer emits: [data] chunks, [end], or [error]. A rejection of
    [finalize()] reaches the same [reject] and is an [ErrorEvent] too. *)
Inductive ArchiveEvent : Type :=
| DataEvent (chunk : string)
| EndEvent
| ErrorEvent (why : string).

(** The archiver library: the events it emits while entries are appended,
    and those it emits once [finalize()] has been called, each for the
    entries it then holds. *)
Record Archiver : Type :=
  { whileAppending : Archive -> list ArchiveEvent;
    afterFinalize : Archive -> list ArchiveEvent }.

Inductive Promise (A : Type) : Type :=
| Pending
| Fulfilled (v : A)
| Rejected (e : JsError).

Arguments Pending {A}.
Arguments Fulfilled {A} v.
Arguments Rejected {A} e.

Record ZipState : Type := { chunks : list string; promise : Promise string }.

(** [resolve] and [reject] settle a pending promise and are ignored
    afterwards. *)
Definition resolve (v : string) (st : ZipState) : ZipState :=
  match promise st with
  | Pending => {| chunks := chunks st; promise := Fulfilled v |}
  | _ => st
  end.

Definition reject (e : JsError) (st : ZipState) : ZipState :=
  match promise st with
  | Pending => {| chunks := chunks st; promise := Rejected e |}
  | _ => st
  end.

(** [Buffer.concat(chunks)] *)
Definition Buffer_concat (cs : list string) : string := String.concat "" cs.

(** The three handlers registered on the archive. *)
Definition handle (st : ZipState) (ev : ArchiveEvent) : ZipState :=
  match ev with
  | DataEvent chunk =>
      {| chunks := (chunks st ++ [chunk])%list; promise := promise st |}
  | EndEvent => resolve (Buffer_concat (chunks st)) st
  | ErrorEvent why => reject (WriterError why) st
  end.

Definition createZipBuffer (lib : Archiver) (generate : Task unit) : Promise string :=
  let '(archive, outcome) := generate [] in
  let st := fold_left handle (whileAppending lib archive)
              {| chunks := []; promise := Pending |} in
  promise
    match outcome with
    | Ok _ => fold_left handle (afterFinalize lib archive) st
    | Throw e => reject e st
    end.

Section Exports.

Variable K : StaticData.
Variable db : Services.
Variable lib : Archiver.

Definition createPatientsZipBuffer (userIds : list string) : Promise string :=
  createZipBuffer lib (generatePatients K db userIds).

Definition exportPatientDataForUser (userId : string) : Promise string :=
  match await (getUser db userId) with
  | Throw e => Rejected e
  | Ok None =>
      Rejected (HttpsError "not-found"
                  ("Patient with ID " ++ userId ++ " not found"))
  | Ok (Some patient) => createPatientsZipBuffer [id patient]
  end.

Definition inOrganization (organizationId : string) (patient : Document User) : bool :=
  match organization (content patient) with
  | Some o => String.eqb o organizationId
  | None => false
  end.

Definition exportPatientDataForOrganization (organizationId : string)
    : Promise string :=
  match await (getAllPatients db) with
  | Throw e => Rejected e
  | Ok patients =>
      let filteredPatients := filter (inOrganization organizationId) patients in
      createPatientsZipBuffer (map id filteredPatients)
  end.

Definition exportPatientDataForAll : Promise string :=
  match await (getAllPatients db) with
  | Throw e => Rejected e
  | Ok patients => createPatientsZipBuffer (map id patients)
  end.

End Exports.

(** ** Reference notions the properties are stated against *)

(** A reader of semicolon-separated tables: fields end at a semicolon, rows
    at a line feed; a field that opens with a double quote runs to its
    closing quote, and a doubled quote inside it stands for one quote. *)
Inductive ReaderState : Type :=
| FieldStart
| Unquoted
| Quoted
| QuoteInQuoted.

Fixpoint decodeFrom (st : ReaderState) (field : string) (row : list string)
    (input : string) : list (list string) :=
  match input with
  | EmptyString => [(row ++ [field])%list]
  | String c rest =>
      let plain :=
        if Ascii.eqb c semicolon
        then decodeFrom FieldStart EmptyString (row ++ [field])%list rest
        else if Ascii.eqb c newline
        then (row ++ [field])%list :: decodeFrom FieldStart EmptyString [] rest
        else decodeFrom Unquoted (field ++ String c EmptyString) row rest in
      match st with
      | FieldStart =>
          if Ascii.eqb c dquote then decodeFrom Quoted field row rest else plain
      | Unquoted => plain
      | Quoted =>
          if Ascii.eqb c dquote then decodeFrom QuoteInQuoted field row rest
          else decodeFrom Quoted (field ++ String c EmptyString) row rest
      | QuoteInQuoted =>
          if Ascii.eqb c dquote
          then decodeFrom Quoted (field ++ String dquote EmptyString) row rest
          else plain
      end
  end.

Definition decodeCsv (input : string) : list (list string) :=
  decodeFrom FieldStart EmptyString [] input.

(** The value a cell carries after the formula guard. *)
Definition guarded (raw : string) : string :=
  if test_formula_prefix (Some raw) then "'" ++ raw else raw.

Definition quoteIfNeeded (v : string) : string :=
  if test_special (Some v) then wrap_quotes v else v.

(** The text [escapeCsvField] writes for a string cell. *)
Definition encodeText (raw : string) : string := quoteIfNeeded (guarded raw).

(** The text [createCsvBuffer] writes for rows of string cells. *)
Definition encodeTable (rows : list (list string)) : string :=
  String.concat (String newline EmptyString)
    (map (fun r => String.concat ";" (map encodeText r)) rows).

(** The reader states in which a separator or the end of the input closes
    the current field. *)
Definition closes (st : ReaderState) : bool :=
  match st with
  | Quoted => false
  | _ => true
  end.

(** The rows of a table whose projection is total and yields strings. *)
Definition tableRows {T : Type} (headers : list string) (values : list T)
    (row : T -> list string) : list (list string) :=
  headers :: map row values.

Definition textRow {T : Type} (row : T -> list string) (v : T) : result (list cell) :=
  Ok (text_cells (row v)).

(** The item tree read node by node. *)
Definition children (i : FHIRQuestionnaireItem) : list FHIRQuestionnaireItem :=
  match item i with
  | Some cs => cs
  | None => []
  end.

Definition isLeaf (i : FHIRQuestionnaireItem) : bool :=
  match children i with
  | [] => true
  | _ :: _ => false
  end.

(** All nodes of an item tree, depth first, parents before their children,
    children in their given order. *)
Fixpoint preorder (i : FHIRQuestionnaireItem) : list FHIRQuestionnaireItem :=
  i :: match i with
       | QuestionnaireItem _ _ _ _ (Some cs) => flat_map preorder cs
       | QuestionnaireItem _ _ _ _ None => []
       end.

Fixpoint nodeCount (i : FHIRQuestionnaireItem) : nat :=
  S match i with
    | QuestionnaireItem _ _ _ _ (Some cs) => list_sum (map nodeCount cs)
    | QuestionnaireItem _ _ _ _ None => 0
    end.

Definition leaf (label : string) : FHIRQuestionnaireItem :=
  QuestionnaireItem (Some label) None None None None.

Definition group (label : string) (cs : list FHIRQuestionnaireItem)
    : FHIRQuestionnaireItem :=
  QuestionnaireItem (Some label) None None None (Some cs).

(** The entries a writer holds and the names in them. *)
Definition names (ar : Archive) : list string := map name ar.

(** A promise that did not deliver a buffer. *)
Definition noBuffer (p : Promise string) : Prop :=
  forall b, p <> Fulfilled b.

Definition isNotFound (e : JsError) : Prop :=
  exists message, e = HttpsError "not-found" message.

(** What the handlers make of a run of writer events, from a pending
    promise and the chunks kept so far: the first [end] or [error] settles
    it. *)
Fixpoint settle (kept : list string) (events : list ArchiveEvent) : Promise string :=
  match events with
  | [] => Pending
  | DataEvent chunk :: rest => settle (kept ++ [chunk])%list rest
  | EndEvent :: _ => Fulfilled (Buffer_concat kept)
  | ErrorEvent why :: _ => Rejected (WriterError why)
  end.

(** The chunks of a run of events. *)
Definition dataOf (events : list ArchiveEvent) : list string :=
  flat_map (fun ev => match ev with
                      | DataEvent chunk => [chunk]
                      | _ => []
                      end) events.

(** A writer that does not signal [end] before [finalize()] was called. *)
Definition endsAfterFinalize (lib : Archiver) : Prop :=
  forall ar, ~ In EndEvent (whileAppending lib ar).

(** The tail every per-user step shares: the table is appended under its
    name, or the error that kept it from being built is thrown. *)
Definition emit (entryName : string) (table : result string) : Task unit :=
  buffer <~ lift table ;; append buffer entryName.

Definition observationTable (K : StaticData) (collection : string)
    (observations : list (Document FHIRObservation)) : result string :=
  if String.eqb collection (UserObservationCollection_bloodPressure K)
  then createCsvBuffer bloodPressureHeaders observations (bloodPressureRow K)
  else createCsvBuffer observationHeaders observations observationRow.

(** The tables of one user, by entry name, in the order of the branches. *)
Definition userTables (K : StaticData) (db : Services) (userId : string)
    : list (string * result string) :=
  app
    [(userId ++ "/appointments.csv",
      rs <- await (userAppointments db userId) ;;
      createCsvBuffer appointmentHeaders rs appointmentRow);
     (userId ++ "/medicationRequests.csv",
      rs <- await (userMedicationRequests db userId) ;;
      createCsvBuffer medicationRequestHeaders rs medicationRequestRow);
     (userId ++ "/messages.csv",
      rs <- await (userMessages db userId) ;;
      createCsvBuffer messageHeaders rs messageRow)]
    (app
       (map (fun collection =>
               (userId ++ "/" ++ collection ++ ".csv",
                rs <- await (userObservations db userId collection) ;;
                observationTable K collection rs))
          (UserObservationCollection_values K))
       [(userId ++ "/questionnaireResponses_kccq.csv",
         rs <- await (userQuestionnaireResponses db userId) ;;
         createCsvBuffer kccqHeaders (filter (isKccq K) rs) (kccqRow K));
        (userId ++ "/symptomScores.csv",
         rs <- await (userSymptomScores db userId) ;;
         createCsvBuffer symptomScoreHeaders rs symptomScoreRow)]).

(** The entry names of one user, in the order of the branches. *)
Definition userEntryNames (K : StaticData) (userId : string) : list string :=
  app
    [userId ++ "/appointments.csv";
     userId ++ "/medicationRequests.csv";
     userId ++ "/messages.csv"]
    (app
       (map (fun collection => userId ++ "/" ++ collection ++ ".csv")
          (UserObservationCollection_values K))
       [userId ++ "/questionnaireResponses_kccq.csv";
        userId ++ "/symptomScores.csv"]).

(** The archive entry of one questionnaire. *)
Definition questionnaireEntry (q : Document FHIRQuestionnaire) : Entry :=
  {| name := "questionnaire_" ++ id q ++ ".csv";
     data :=
       encodeTable
         (["linkId"; "text"; "type"; "options"]
          :: map (fun i =>
                    [orEmpty (linkId i); orEmpty (text i); orEmpty (type i);
                     join "|" (map optionLabel
                                 (match answerOption i with
                                  | Some os => os
                                  | None => []
                                  end))])
               (questionnaireItems (content q))) |}.

(** A branch that is the shared tail applied to a table. *)
Definition emits (b : Task unit) (t : string * result string) : Prop :=
  forall ar, b ar = emit (fst t) (snd t) ar.

(** The entries of the tables that were built, and the first error among
    those that were not. *)
Definition okEntries (tables : list (string * result string)) : Archive :=
  flat_map (fun t => match snd t with
                     | Ok buffer => [{| name := fst t; data := buffer |}]
                     | Throw _ => []
                     end) tables.

Fixpoint firstError (tables : list (string * result string)) : result unit :=
  match tables with
  | [] => Ok tt
  | (_, Throw e) :: _ => Throw e
  | (_, Ok _) :: rest => firstError rest
  end.

(** The errors the service raises on its own account: a failed member
    access or date conversion, or a rejected store query. *)
Definition raisedInside (e : JsError) : Prop :=
  e = TypeError \/ e = RangeError \/ exists why, e = StoreError why.

(** An error in one of the branches of a user: a store query that rejects,
    or a record on which the projector of its table throws. *)
Inductive branchFailure (K : StaticData) (db : Services) (u : string) : Prop :=
| appointments_rejected why :
    userAppointments db u = inl why -> branchFailure K db u
| appointment_throws rs v e :
    userAppointments db u = inr rs -> In v rs -> appointmentRow v = Throw e ->
    branchFailure K db u
| medicationRequests_rejected why :
    userMedicationRequests db u = inl why -> branchFailure K db u
| messages_rejected why :
    userMessages db u = inl why -> branchFailure K db u
| message_throws rs v e :
    userMessages db u = inr rs -> In v rs -> messageRow v = Throw e ->
    branchFailure K db u
| observations_rejected c why :
    In c (UserObservationCollection_values K) ->
    userObservations db u c = inl why -> branchFailure K db u
| bloodPressure_throws c rs v e :
    In c (UserObservationCollection_values K) ->
    c = UserObservationCollection_bloodPressure K ->
    userObservations db u c = inr rs -> In v rs -> bloodPressureRow K v = Throw e ->
    branchFailure K db u
| observation_throws c rs v e :
    In c (UserObservationCollection_values K) ->
    c <> UserObservationCollection_bloodPressure K ->
    userObservations db u c = inr rs -> In v rs -> observationRow v = Throw e ->
    branchFailure K db u
| responses_rejected why :
    userQuestionnaireResponses db u = inl why -> branchFailure K db u
| response_throws rs v e :
    userQuestionnaireResponses db u = inr rs -> In v (filter (isKccq K) rs) ->
    kccqRow K v = Throw e -> branchFailure K db u
| symptomScores_rejected why :
    userSymptomScores db u = inl why -> branchFailure K db u
| symptomScore_throws rs v e :
    userSymptomScores db u = inr rs -> In v rs -> symptomScoreRow v = Throw e ->
    branchFailure K db u.

(** Sample constants, a store with two patients and a writer that delivers
    its entries in one chunk, for the concrete runs below. *)
Definition sampleData : StaticData :=
  {| LoincCode_systolicBloodPressure := "8480-6";
     LoincCode_diastolicBloodPressure := "8462-4";
     UserObservationCollection_values :=
       ["bodyWeightObservations"; "bloodPressureObservations"];
     UserObservationCollection_bloodPressure := "bloodPressureObservations";
     kccq_url := "kccq";
     question1a := "1a"; question1b := "1b"; question1c := "1c";
     question2 := "2"; question3 := "3"; question4 := "4";
     question5 := "5"; question6 := "6"; question7 := "7";
     question8a := "8a"; question8b := "8b"; question8c := "8c";
     question9 := "9" |}.

Definition samplePatients : list (Document User) :=
  [{| id := "p0"; content := {| organization := Some "stanford" |} |};
   {| id := "p1"; content := {| organization := Some "jhu" |} |}].

Definition sampleStore : Services :=
  {| getUser := fun u =>
       inr (find (fun p => String.eqb (id p) u) samplePatients);
     getAllPatients := inr samplePatients;
     questionnaires :=
       inr [{| id := "0";
               content := {| questionnaire_item := Some [leaf "q1"] |} |}];
     userAppointments := fun _ => inr [];
     userMedicationRequests := fun _ => inr [];
     userMessages := fun _ => inr [];
     userObservations := fun _ _ => inr [];
     userQuestionnaireResponses := fun _ => inr [];
     userSymptomScores := fun u =>
       if String.eqb u "p1"
       then inr [{| id := "s1";
                    content :=
                      {| overallScore := None;
                         physicalLimitsScore := None;
                         socialLimitsScore := None;
                         symptomFrequencyScore := None;
                         qualityOfLifeScore := None;
                         dizzinessScore := None;
                         date := None;
                         questionnaireResponseId := None |} |}]
       else inr [] |}.

Definition sampleArchiver : Archiver :=
  {| whileAppending := fun _ => [];
     afterFinalize := fun ar =>
       [DataEvent (String.concat "|" (names ar)); EndEvent] |}.

(** A cell with [undefined] replaced by the empty string. *)
Definition definedCell (c : cell) : cell := Some (orEmpty c).

(** ** The identity blocking functions

    The handlers of [beforeUserCreatedFunction] and
    [beforeUserSignedInFunction]. Log lines are left out: they are the only
    effect not modelled. The service calls that change the store are
    recorded in the order they are made. *)

(** A claim value of the identity provider: anything JSON can hold. *)
Inductive JsValue : Type :=
| JsUndefined
| JsNull
| JsString (s : string)
| JsOther.

Inductive UserType : Type := admin | owner | clinician | patient.

Definition UserType_eqb (a b : UserType) : bool :=
  match a, b with
  | admin, admin | owner, owner | clinician, clinician | patient, patient => true
  | _, _ => false
  end.

Definition UserClaims : Type := list (string * JsValue).

Record UserRegistration : Type :=
  { registration_type : UserType;
    registration_organization : option string }.

Record Invitation : Type := { invitation_user : UserRegistration }.

Record Organization : Type := { ssoProviderId : option string }.

Record AuthUserRecord : Type := { uid : string; email : option string }.

Record AuthCredential : Type :=
  { providerId : string;
    credential_claims : option (string -> JsValue) }.

Record AuthBlockingEvent : Type :=
  { event_data : option AuthUserRecord;
    event_credential : option AuthCredential }.

Record BlockingResponse : Type :=
  { customClaims : UserClaims;
    sessionClaims : option UserClaims }.

Inductive ServiceCall : Type :=
| EnrollUser (invitation : Document Invitation) (userId : string)
| UserEnrolled (userDoc : Document User).

(** The user service, the trigger service and the flag the handlers use.
    The [claims] getters of the models package are taken as functions of
    the record they belong to. *)
Record IdentityServices : Type :=
  { requireInvitationOrganizationToMatchSsoProviderId : bool;
    getOrganizationBySsoProviderId : string -> query (option (Document Organization));
    getInvitationByCode : string -> query (option (Document Invitation));
    enrollUser : Document Invitation -> string -> query (Document User);
    userEnrolled : Document User -> query unit;
    lookupUser : string -> query (option (Document User));
    registrationClaims : UserRegistration -> UserClaims;
    userClaims : User -> UserClaims }.

(** [a ?? b] on claim values: [null] and [undefined] give way. *)
Definition nullish (a b : JsValue) : JsValue :=
  match a with
  | JsUndefined | JsNull => b
  | _ => a
  end.

(** [z.string().optional().parse(v)]: a string or [undefined] passes,
    anything else throws. *)
Definition parseOptionalString (v : JsValue) : result (option string) :=
  match v with
  | JsUndefined => Ok None
  | JsString s => Ok (Some s)
  | _ => Throw TypeError
  end.

(** The candidate for the email address: the address of the user record,
    else the [upn] claim, else the [unique_name] claim. *)
Definition emailCandidate (data : AuthUserRecord) (credential : AuthCredential)
    : JsValue :=
  let credentialClaims :=
    match credential_claims credential with
    | Some claims => claims
    | None => fun _ => JsUndefined
    end in
  match email data with
  | Some address => JsString address
  | None => nullish (credentialClaims "upn") (credentialClaims "unique_name")
  end.

Definition invalidArgument (message : string) : JsError :=
  HttpsError "invalid-argument" message.

Definition organizationMismatch (sv : IdentityServices)
    (invitation : Document Invitation) (organization : Document Organization)
    : bool :=
  requireInvitationOrganizationToMatchSsoProviderId sv
  && negb (UserType_eqb (registration_type (invitation_user (content invitation)))
             admin)
  && negb (match registration_organization (invitation_user (content invitation)) with
           | Some o => String.eqb o (id organization)
           | None => false
           end).

Definition beforeUserCreatedHandler (sv : IdentityServices) (event : AuthBlockingEvent)
    : list ServiceCall * result BlockingResponse :=
  match event_data event with
  | None => ([], Throw (invalidArgument "User data is required for user."))
  | Some data =>
      let userId := uid data in
      match event_credential event with
      | None => ([], Ok {| customClaims := []; sessionClaims := None |})
      | Some credential =>
          match parseOptionalString (emailCandidate data credential) with
          | Throw _ =>
              ([], Throw (invalidArgument "Email address validation failed."))
          | Ok None =>
              ([], Throw (invalidArgument "Email address is required for user."))
          | Ok (Some emailAddress) =>
              match await (getOrganizationBySsoProviderId sv (providerId credential)) with
              | Throw e => ([], Throw e)
              | Ok None =>
                  ([], Throw (HttpsError "failed-precondition"
                                "Organization not found."))
              | Ok (Some organization) =>
                  match await (getInvitationByCode sv emailAddress) with
                  | Throw e => ([], Throw e)
                  | Ok None =>
                      ([], Throw (HttpsError "not-found"
                                    "No valid invitation code found for user."))
                  | Ok (Some invitation) =>
                      if organizationMismatch sv invitation organization
                      then ([], Throw (HttpsError "failed-precondition"
                                         "Organization does not match invitation code."))
                      else
                        match await (enrollUser sv invitation userId) with
                        | Throw e => ([EnrollUser invitation userId], Throw e)
                        | Ok userDoc =>
                            match await (userEnrolled sv userDoc) with
                            | Throw e =>
                                ([EnrollUser invitation userId; UserEnrolled userDoc],
                                 Throw e)
                            | Ok _ =>
                                ([EnrollUser invitation userId; UserEnrolled userDoc],
                                 Ok {| customClaims :=
                                         registrationClaims sv
                                           (invitation_user (content invitation));
                                       sessionClaims := None |})
                            end
                        end
                  end
              end
          end
      end
  end.

(** The body of the [try] block of the sign-in handler. *)
Definition signedInAttempt (sv : IdentityServices) (event : AuthBlockingEvent)
    : result BlockingResponse :=
  match event_data event with
  | None => Throw (invalidArgument "User data is required for user.")
  | Some data =>
      user <- await (lookupUser sv (uid data)) ;;
      match user with
      | Some u =>
          Ok {| customClaims := userClaims sv (content u);
                sessionClaims := Some (userClaims sv (content u)) |}
      | None => Ok {| customClaims := []; sessionClaims := None |}
      end
  end.

Definition beforeUserSignedInHandler (sv : IdentityServices)
    (event : AuthBlockingEvent) : result BlockingResponse :=
  match signedInAttempt sv event with
  | Ok response => Ok response
  | Throw _ => Ok {| customClaims := []; sessionClaims := None |}
  end.

(** Sample services for the concrete runs below. *)
Definition sampleInvitation : Document Invitation :=
  {| id := "inv1";
     content :=
       {| invitation_user :=
            {| registration_type := clinician;
               registration_organization := Some "stanford" |} |} |}.

Definition sampleIdentity : IdentityServices :=
  {| requireInvitationOrganizationToMatchSsoProviderId := true;
     getOrganizationBySsoProviderId := fun provider =>
       if String.eqb provider "oidc.stanford"
       then inr (Some {| id := "stanford";
                         content := {| ssoProviderId := Some "oidc.stanford" |} |})
       else inr None;
     getInvitationByCode := fun code =>
       if String.eqb code "a@stanford.edu" then inr (Some sampleInvitation)
       else inr None;
     enrollUser := fun invitation userId =>
       inr {| id := userId;
              content :=
                {| organization :=
                     registration_organization
                       (invitation_user (content invitation)) |} |};
     userEnrolled := fun _ => inr tt;
     lookupUser := fun _ => inl "unavailable";
     registrationClaims := fun r =>
       match registration_organization r with
       | Some o => [("organization", JsString o)]
       | None => []
       end;
     userClaims := fun _ => [] |}.

Definition sampleEvent : AuthBlockingEvent :=
  {| event_data := Some {| uid := "u1"; email := None |};
     event_credential :=
       Some {| providerId := "oidc.stanford";
               credential_claims :=
                 Some (fun key => if String.eqb key "unique_name"
                                  then JsString "a@stanford.edu"
                                  else if String.eqb key "upn" then JsNull
                                  else JsUndefined) |} |}.

(** * Properties *)

(** ** Strings and the error monad *)

Lemma append_assoc (a b c : string) : (a ++ b) ++ c = a ++ (b ++ c).
Proof. induction a as [|x a IH]; simpl; [reflexivity | now rewrite IH]. Qed.

Lemma append_empty_r (a : string) : a ++ EmptyString = a.
Proof. induction a as [|x a IH]; simpl; [reflexivity | now rewrite IH]. Qed.

Lemma join_text (sep : string) (ss : list string) :
  join sep (text_cells ss) = String.concat sep ss.
Proof.
  unfold join, text_cells. rewrite map_map. simpl. now rewrite map_id.
Qed.

Lemma mapM_Ok {A B : Type} (f : A -> result B) (g : A -> B) (xs : list A) :
  (forall x, In x xs -> f x = Ok (g x)) -> mapM f xs = Ok (map g xs).
Proof.
  induction xs as [|x xs IH]; intros H; simpl; [reflexivity|].
  rewrite (H x (or_introl eq_refl)). simpl.
  rewrite IH by (intros y Hy; apply H; now right). reflexivity.
Qed.

Lemma mapM_Throw {A B : Type} (f : A -> result B) (xs : list A) (x : A) (e : JsError) :
  In x xs -> f x = Throw e -> exists e', mapM f xs = Throw e'.
Proof.
  induction xs as [|y xs IH]; intros Hin Hx; [destruct Hin|].
  simpl. destruct Hin as [->|Hin].
  - rewrite Hx. now exists e.
  - destruct (f y); simpl; [|eauto].
    destruct (IH Hin Hx) as [e' ->]. simpl. eauto.
Qed.

Lemma mapM_length {A B : Type} (f : A -> result B) (xs : list A) (ys : list B) :
  mapM f xs = Ok ys -> List.length ys = List.length xs.
Proof.
  revert ys. induction xs as [|x xs IH]; intros ys; simpl.
  - intros [= <-]. reflexivity.
  - destruct (f x); simpl; [|discriminate].
    destruct (mapM f xs); simpl; [|discriminate].
    intros [= <-]. simpl. now rewrite (IH _ eq_refl).
Qed.

(** ** The field encoder *)

Lemma ascii_in_In (cs : list ascii) (c : ascii) :
  ascii_in cs c = true <-> In c cs.
Proof.
  unfold ascii_in. rewrite existsb_exists. split.
  - intros [x [Hx He]]. apply Ascii.eqb_eq in He. now subst.
  - intros H. exists c. split; [assumption | apply Ascii.eqb_refl].
Qed.

Lemma string_existsb_In (p : ascii -> bool) (s : string) :
  string_existsb p s = true <-> exists c, In c (list_ascii_of_string s) /\ p c = true.
Proof.
  induction s as [|x s IH]; simpl.
  - split; [discriminate | intros [c [[] _]]].
  - rewrite orb_true_iff, IH. split.
    + intros [H | [c [Hc Hp]]]; [exists x | exists c]; auto.
    + intros [c [[<- | Hc] Hp]]; [now left | right; eauto].
Qed.

(** Doubling the quotes is cutting the text at its quotes and gluing the
    pieces with two quotes. *)
Lemma double_quotes_split (s : string) :
  double_quotes s =
  String.concat (String dquote (String dquote EmptyString)) (split dquote s).
Proof.
  induction s as [|c s IH]; simpl; [reflexivity|].
  destruct (Ascii.eqb c dquote) eqn:E.
  - rewrite IH. destruct (split dquote s) eqn:Es; [|reflexivity].
    destruct s; simpl in Es; [discriminate|].
    destruct (Ascii.eqb a dquote); [discriminate|].
    destruct (split dquote s); discriminate.
  - rewrite IH. destruct (split dquote s) as [|seg segs] eqn:Es.
    + destruct s; simpl in Es; [discriminate|].
      destruct (Ascii.eqb a dquote); [discriminate|].
      destruct (split dquote s); discriminate.
    + simpl. destruct segs; reflexivity.
Qed.

Lemma escapeCsvField_text (raw : string) :
  escapeCsvField (Some raw) = Ok (Some (encodeText raw)).
Proof.
  unfold escapeCsvField, encodeText, quoteIfNeeded, guarded. simpl ToString.
  destruct (test_formula_prefix (Some raw));
    match goal with |- context [test_special ?c] => destruct (test_special c) end;
    reflexivity.
Qed.

Lemma escapeCsvField_undefined : escapeCsvField None = Ok None.
Proof. reflexivity. Qed.

Lemma escapeCsvField_total (c : cell) :
  escapeCsvField c = Ok (option_map encodeText c).
Proof. destruct c; [apply escapeCsvField_text | reflexivity]. Qed.

Lemma mapM_escapeCsvField (cells : list cell) :
  mapM escapeCsvField cells = Ok (map (option_map encodeText) cells).
Proof. apply mapM_Ok. intros c _. apply escapeCsvField_total. Qed.

(** C1. The field encoder: a field that starts with one of [= + - @] gets an
    apostrophe in front; the value so obtained is wrapped in double quotes,
    its own quotes doubled, when it holds a semicolon, a line feed or a
    double quote, and is returned as it is otherwise. The field [=SUM(A1)]
    encodes to ['=SUM(A1)]. *)
Theorem escapeCsvField_spec :
  (forall raw : string,
      exists v : string,
        ((exists c rest, raw = String c rest /\ In c ["="; "+"; "-"; "@"]%char)
         /\ v = "'" ++ raw
         \/ ~ (exists c rest, raw = String c rest /\ In c ["="; "+"; "-"; "@"]%char)
            /\ v = raw)
        /\ ((exists c, In c (list_ascii_of_string v)
                       /\ In c [semicolon; newline; dquote])
            /\ escapeCsvField (Some raw)
               = Ok (Some (String dquote
                             (String.concat (String dquote (String dquote EmptyString))
                                (split dquote v)
                              ++ String dquote EmptyString)))
            \/ ~ (exists c, In c (list_ascii_of_string v)
                            /\ In c [semicolon; newline; dquote])
               /\ escapeCsvField (Some raw) = Ok (Some v)))
  /\ escapeCsvField (Some "=SUM(A1)") = Ok (Some "'=SUM(A1)").
Proof.
  split; [|reflexivity].
  intros raw. exists (guarded raw). split.
  - unfold guarded, test_formula_prefix. simpl ToString.
    destruct raw as [|c rest].
    + right. split; [|reflexivity]. intros [c [rest [H _]]]. discriminate.
    + destruct (ascii_in formulaChars c) eqn:E.
      * left. split; [|reflexivity]. exists c, rest. split; [reflexivity|].
        now apply ascii_in_In in E.
      * right. split; [|reflexivity]. intros [c' [rest' [[= <- <-] Hin]]].
        apply (ascii_in_In formulaChars) in Hin. congruence.
  - rewrite escapeCsvField_text.
    unfold encodeText, quoteIfNeeded, test_special. simpl ToString.
    destruct (string_existsb (ascii_in specialChars) (guarded raw)) eqn:E.
    + left. split.
      * apply string_existsb_In in E. destruct E as [c [Hc Hp]].
        exists c. split; [assumption|]. now apply ascii_in_In in Hp.
      * unfold wrap_quotes. now rewrite double_quotes_split.
    + right. split; [|reflexivity]. intros [c [Hc Hs]].
      assert (string_existsb (ascii_in specialChars) (guarded raw) = true).
      { apply string_existsb_In. exists c. split; [assumption|].
        now apply ascii_in_In. }
      congruence.
Qed.

(** ** Reading back what the table builder wrote *)

Lemma decode_close_semicolon st f row k :
  closes st = true ->
  decodeFrom st f row (String semicolon k)
  = decodeFrom FieldStart EmptyString (row ++ [f])%list k.
Proof. destruct st; simpl; intros H; (reflexivity || discriminate). Qed.

Lemma decode_close_newline st f row k :
  closes st = true ->
  decodeFrom st f row (String newline k)
  = (row ++ [f])%list :: decodeFrom FieldStart EmptyString [] k.
Proof. destruct st; simpl; intros H; (reflexivity || discriminate). Qed.

Lemma not_special c :
  ascii_in specialChars c = false ->
  Ascii.eqb c semicolon = false /\ Ascii.eqb c newline = false
  /\ Ascii.eqb c dquote = false.
Proof.
  unfold ascii_in, specialChars. simpl.
  rewrite !orb_false_iff. tauto.
Qed.

Lemma decode_unquoted v f row k :
  string_existsb (ascii_in specialChars) v = false ->
  decodeFrom Unquoted f row (v ++ k) = decodeFrom Unquoted (f ++ v) row k.
Proof.
  revert f. induction v as [|c v IH]; intros f H.
  - simpl. now rewrite append_empty_r.
  - simpl in H. apply orb_false_iff in H. destruct H as [Hc Hv].
    destruct (not_special c Hc) as [H1 [H2 _]].
    change (String c v ++ k) with (String c (v ++ k)).
    cbn [decodeFrom]. rewrite H1, H2. rewrite IH by assumption.
    rewrite append_assoc. reflexivity.
Qed.

Lemma decode_quoted v f row k :
  decodeFrom Quoted f row (double_quotes v ++ String dquote k)
  = decodeFrom QuoteInQuoted (f ++ v) row k.
Proof.
  revert f. induction v as [|c v IH]; intros f.
  - simpl. now rewrite append_empty_r.
  - cbn [double_quotes]. destruct (Ascii.eqb c dquote) eqn:E.
    + apply Ascii.eqb_eq in E. subst c.
      change (String dquote (String dquote (double_quotes v)) ++ String dquote k)
        with (String dquote (String dquote (double_quotes v ++ String dquote k))).
      cbn [decodeFrom]. rewrite Ascii.eqb_refl. rewrite IH.
      rewrite append_assoc. reflexivity.
    + change (String c (double_quotes v) ++ String dquote k)
        with (String c (double_quotes v ++ String dquote k)).
      cbn [decodeFrom]. rewrite E. rewrite IH.
      rewrite append_assoc. reflexivity.
Qed.

Lemma decode_field v row k :
  exists st, closes st = true
    /\ decodeFrom FieldStart EmptyString row (quoteIfNeeded v ++ k)
       = decodeFrom st v row k.
Proof.
  unfold quoteIfNeeded, test_special. simpl ToString.
  destruct (string_existsb (ascii_in specialChars) v) eqn:E.
  - exists QuoteInQuoted. split; [reflexivity|].
    unfold wrap_quotes.
    change (String dquote (double_quotes v ++ String dquote EmptyString) ++ k)
      with (String dquote ((double_quotes v ++ String dquote EmptyString) ++ k)).
    rewrite append_assoc. cbn [decodeFrom]. rewrite Ascii.eqb_refl.
    change (String dquote EmptyString ++ k) with (String dquote k).
    now rewrite decode_quoted.
  - destruct v as [|c v].
    + exists FieldStart. split; reflexivity.
    + exists Unquoted. split; [reflexivity|].
      simpl in E. apply orb_false_iff in E. destruct E as [Hc Hv].
      destruct (not_special c Hc) as [H1 [H2 H3]].
      change (String c v ++ k) with (String c (v ++ k)).
      cbn [decodeFrom]. rewrite H1, H2, H3.
      now rewrite decode_unquoted.
Qed.

Lemma decode_row_end c cs row :
  decodeFrom FieldStart EmptyString row
    (String.concat ";" (map quoteIfNeeded (c :: cs)))
  = [(row ++ c :: cs)%list].
Proof.
  revert c row. induction cs as [|c' cs IH]; intros c row.
  - simpl. rewrite <- (append_empty_r (quoteIfNeeded c)).
    destruct (decode_field c row EmptyString) as [st [_ ->]].
    destruct st; reflexivity.
  - change (String.concat ";" (map quoteIfNeeded (c :: c' :: cs)))
      with (quoteIfNeeded c
            ++ String semicolon (String.concat ";" (map quoteIfNeeded (c' :: cs)))).
    destruct (decode_field c row
                (String semicolon (String.concat ";" (map quoteIfNeeded (c' :: cs)))))
      as [st [Hst ->]].
    rewrite decode_close_semicolon by assumption.
    rewrite IH. now rewrite <- app_assoc.
Qed.

Lemma decode_row_newline c cs row k :
  decodeFrom FieldStart EmptyString row
    (String.concat ";" (map quoteIfNeeded (c :: cs)) ++ String newline k)
  = (row ++ c :: cs)%list :: decodeFrom FieldStart EmptyString [] k.
Proof.
  revert c row. induction cs as [|c' cs IH]; intros c row.
  - simpl String.concat.
    destruct (decode_field c row (String newline k)) as [st [Hst ->]].
    now rewrite decode_close_newline.
  - change (String.concat ";" (map quoteIfNeeded (c :: c' :: cs)))
      with (quoteIfNeeded c
            ++ String semicolon (String.concat ";" (map quoteIfNeeded (c' :: cs)))).
    rewrite append_assoc.
    change (String semicolon (String.concat ";" (map quoteIfNeeded (c' :: cs)))
            ++ String newline k)
      with (String semicolon
              (String.concat ";" (map quoteIfNeeded (c' :: cs)) ++ String newline k)).
    destruct (decode_field c row
                (String semicolon
                   (String.concat ";" (map quoteIfNeeded (c' :: cs))
                    ++ String newline k)))
      as [st [Hst ->]].
    rewrite decode_close_semicolon by assumption.
    rewrite IH. now rewrite <- app_assoc.
Qed.

Lemma decode_rows (r : list string) (rs : list (list string)) :
  Forall (fun x => x <> []) (r :: rs) ->
  decodeCsv (String.concat (String newline EmptyString)
               (map (fun x => String.concat ";" (map quoteIfNeeded x)) (r :: rs)))
  = r :: rs.
Proof.
  unfold decodeCsv. revert r. induction rs as [|r' rs IH]; intros r H.
  - inversion H as [|? ? Hr _]; subst. destruct r as [|c cs]; [congruence|].
    simpl map. simpl String.concat. apply decode_row_end.
  - inversion H as [|? ? Hr Hrs]; subst. destruct r as [|c cs]; [congruence|].
    change (String.concat (String newline EmptyString)
              (map (fun x => String.concat ";" (map quoteIfNeeded x))
                 ((c :: cs) :: r' :: rs)))
      with (String.concat ";" (map quoteIfNeeded (c :: cs))
            ++ String newline
                 (String.concat (String newline EmptyString)
                    (map (fun x => String.concat ";" (map quoteIfNeeded x))
                       (r' :: rs)))).
    rewrite decode_row_newline. simpl app. f_equal. now apply IH.
Qed.

(** The reader returns every cell as the formula guard left it. *)
Lemma decode_encodeTable (rows : list (list string)) :
  rows <> [] -> Forall (fun x => x <> []) rows ->
  decodeCsv (encodeTable rows) = map (map guarded) rows.
Proof.
  intros Hne Hall. destruct rows as [|r rs]; [congruence|].
  unfold encodeTable, encodeText.
  replace (map (fun r0 => String.concat ";" (map (fun raw => quoteIfNeeded (guarded raw)) r0))
             (r :: rs))
    with (map (fun x => String.concat ";" (map quoteIfNeeded x))
            (map (map guarded) (r :: rs))).
  - change (map (map guarded) (r :: rs))
      with (map guarded r :: map (map guarded) rs).
    apply decode_rows.
    change (map guarded r :: map (map guarded) rs)
      with (map (map guarded) (r :: rs)).
    apply Forall_map. eapply Forall_impl; [|exact Hall].
    intros x Hx. destruct x; [congruence | discriminate].
  - rewrite map_map. apply map_ext. intros x. now rewrite map_map.
Qed.

Lemma encodeText_empty : encodeText EmptyString = EmptyString.
Proof. reflexivity. Qed.

Lemma orEmpty_encodeText (c : cell) :
  orEmpty (option_map encodeText c) = encodeText (orEmpty c).
Proof. destruct c; reflexivity. Qed.

Lemma join_escaped (cells : list cell) :
  join ";" (map (option_map encodeText) cells)
  = String.concat ";" (map encodeText (map orEmpty cells)).
Proof.
  unfold join. f_equal. rewrite !map_map. apply map_ext.
  intros c. apply orEmpty_encodeText.
Qed.

Lemma mapM_lines {T : Type} (row : T -> result (list cell)) (values : list T)
    (rows : list (list cell)) :
  mapM row values = Ok rows ->
  mapM (fun item =>
          cells <- row item ;;
          fields <- mapM escapeCsvField cells ;;
          Ok (Some (join ";" fields))) values
  = Ok (map (fun r => Some (String.concat ";" (map encodeText (map orEmpty r)))) rows).
Proof.
  revert rows. induction values as [|v values IH]; intros rows; simpl.
  - intros [= <-]. reflexivity.
  - destruct (row v) as [cells|e]; simpl; [|discriminate].
    destruct (mapM row values) as [rest|e]; simpl; [|discriminate].
    intros [= <-]. rewrite mapM_escapeCsvField. simpl.
    rewrite (IH rest eq_refl). simpl. now rewrite join_escaped.
Qed.

(** When every record projects, the table is the encoding of the header
    and the projected rows, an [undefined] cell counting as empty text. *)
Lemma createCsvBuffer_Ok {T : Type} (headers : list cell) (values : list T)
    (row : T -> result (list cell)) (rows : list (list cell)) :
  mapM row values = Ok rows ->
  createCsvBuffer headers values row
  = Ok (encodeTable (map (map orEmpty) (headers :: rows))).
Proof.
  intros H. unfold createCsvBuffer.
  rewrite mapM_escapeCsvField. simpl bind.
  rewrite (mapM_lines row values rows H). simpl bind.
  rewrite join_escaped. unfold encodeTable, join. simpl map.
  f_equal. f_equal. f_equal. rewrite !map_map. reflexivity.
Qed.

(** When some record does not project, no table is built. *)
Lemma createCsvBuffer_Throw {T : Type} (headers : list cell) (values : list T)
    (row : T -> result (list cell)) (v : T) (e : JsError) :
  In v values -> row v = Throw e ->
  exists e', createCsvBuffer headers values row = Throw e'.
Proof.
  intros Hin Hv. unfold createCsvBuffer.
  rewrite mapM_escapeCsvField. simpl bind.
  destruct (mapM_Throw
              (fun item =>
                 cells <- row item ;;
                 fields <- mapM escapeCsvField cells ;;
                 Ok (Some (join ";" fields))) values v e Hin) as [e' ->].
  - now rewrite Hv.
  - simpl. eauto.
Qed.

Lemma mapM_textRow {T : Type} (row : T -> list string) (values : list T) :
  mapM (textRow row) values = Ok (map (fun v => text_cells (row v)) values).
Proof. apply mapM_Ok. reflexivity. Qed.

Lemma orEmpty_text_cells (ss : list string) : map orEmpty (text_cells ss) = ss.
Proof. unfold text_cells. rewrite map_map. apply map_id. Qed.

Lemma createCsvBuffer_text {T : Type} (headers : list string) (values : list T)
    (row : T -> list string) :
  createCsvBuffer (text_cells headers) values (textRow row)
  = Ok (encodeTable (tableRows headers values row)).
Proof.
  rewrite (createCsvBuffer_Ok _ _ _ _ (mapM_textRow row values)).
  unfold tableRows. simpl map. rewrite orEmpty_text_cells.
  do 3 f_equal. rewrite map_map. apply map_ext.
  intros v. apply orEmpty_text_cells.
Qed.

Lemma tableRows_nonempty {T : Type} (headers : list string) (values : list T)
    (row : T -> list string) :
  headers <> [] -> (forall v, In v values -> row v <> []) ->
  Forall (fun x => x <> []) (tableRows headers values row).
Proof.
  intros Hh Hr. constructor; [assumption|].
  apply Forall_map. apply Forall_forall. assumption.
Qed.

Lemma decode_table {T : Type} (headers : list string) (values : list T)
    (row : T -> list string) :
  headers <> [] -> (forall v, In v values -> row v <> []) ->
  decodeCsv (encodeTable (tableRows headers values row))
  = map (map guarded) (tableRows headers values row).
Proof.
  intros Hh Hr. apply decode_encodeTable.
  - discriminate.
  - now apply tableRows_nonempty.
Qed.

(** ** The table builder *)

(** C2, as the code has it: for a header list with at least one column and
    a projection that returns as many cells as there are columns, the table
    reads back as the header row followed by one row per record, in the
    order of the records, every row with exactly as many cells as the
    header; with no record the table is the header row alone. *)
Theorem createCsvBuffer_shape {T : Type} (headers : list string) (values : list T)
    (row : T -> list string) :
  headers <> [] ->
  (forall v, In v values -> List.length (row v) = List.length headers) ->
  exists table,
    createCsvBuffer (text_cells headers) values (textRow row) = Ok table
    /\ List.length (decodeCsv table) = List.length values + 1
    /\ Forall (fun r => List.length r = List.length headers) (decodeCsv table)
    /\ nth_error (decodeCsv table) 0 = Some (map guarded headers)
    /\ (forall i v, nth_error values i = Some v ->
                    nth_error (decodeCsv table) (S i) = Some (map guarded (row v)))
    /\ (values = [] -> table = String.concat ";" (map encodeText headers)).
Proof.
  intros Hh Hlen. eexists. split; [apply createCsvBuffer_text|].
  assert (Hne : forall v, In v values -> row v <> []).
  { intros v Hv E. specialize (Hlen v Hv). rewrite E in Hlen.
    destruct headers; [congruence | discriminate]. }
  rewrite (decode_table headers values row Hh Hne). unfold tableRows.
  repeat split.
  - simpl. rewrite !length_map. lia.
  - constructor; [apply length_map|].
    apply Forall_map. apply Forall_map. apply Forall_forall.
    intros v Hv. rewrite length_map. now apply Hlen.
  - intros i v Hi. simpl. rewrite map_map.
    rewrite nth_error_map, Hi. reflexivity.
  - intros ->. reflexivity.
Qed.

Lemma createCsvBuffer_shape_witness :
  exists table,
    createCsvBuffer (text_cells ["id"; "note"]) ["a;b"; "c"]
      (textRow (fun v => ["1"; v])) = Ok table
    /\ List.length (decodeCsv table) = 3.
Proof.
  destruct (createCsvBuffer_shape ["id"; "note"] ["a;b"; "c"] (fun v => ["1"; v]))
    as [table [H1 [H2 _]]].
  - discriminate.
  - intros v _. reflexivity.
  - exists table. split; [exact H1 | exact H2].
Defined.

(** C2, as stated, fails for the empty header list: the table built from
    no column at all is the empty text, the same text as the table of one
    empty column, and it reads back as one row of one cell. *)
Lemma createCsvBuffer_shape_counterexample :
  createCsvBuffer (text_cells []) (@nil unit) (textRow (fun _ => [])) = Ok EmptyString
  /\ createCsvBuffer (text_cells [EmptyString]) (@nil unit) (textRow (fun _ => []))
     = Ok EmptyString
  /\ decodeCsv EmptyString = [[EmptyString]]
  /\ ~ Forall (fun r => List.length r = List.length (@nil string))
         (decodeCsv EmptyString).
Proof.
  repeat split. intros H. inversion H as [|? ? Hr _]. discriminate.
Qed.

(** C3, as the code has it: when every row has at least one cell, the
    table reads back cell by cell as the values the formula guard left: a
    cell that starts with one of [= + - @] comes back with the apostrophe
    in front, and every other cell comes back as it was. *)
Theorem createCsvBuffer_roundtrip {T : Type} (headers : list string)
    (values : list T) (row : T -> list string) :
  headers <> [] ->
  (forall v, In v values -> row v <> []) ->
  exists table,
    createCsvBuffer (text_cells headers) values (textRow row) = Ok table
    /\ decodeCsv table = map (map guarded) (tableRows headers values row)
    /\ (Forall (Forall (fun c => test_formula_prefix (Some c) = false))
          (tableRows headers values row) ->
        decodeCsv table = tableRows headers values row).
Proof.
  intros Hh Hr. eexists. split; [apply createCsvBuffer_text|].
  rewrite (decode_table headers values row Hh Hr). split; [reflexivity|].
  intros Hall. rewrite <- (map_id (tableRows headers values row)) at 2.
  apply map_ext_in. intros r Hin. rewrite <- (map_id r) at 2.
  apply map_ext_in. intros c Hc. unfold guarded.
  rewrite Forall_forall in Hall. specialize (Hall r Hin).
  rewrite Forall_forall in Hall. now rewrite (Hall c Hc).
Qed.

Lemma createCsvBuffer_roundtrip_witness :
  exists table,
    createCsvBuffer (text_cells ["id"; "note"]) ["a;b"; "=c"]
      (textRow (fun v => ["1"; v])) = Ok table
    /\ decodeCsv table = [["id"; "note"]; ["1"; "a;b"]; ["1"; "'=c"]].
Proof.
  destruct (createCsvBuffer_roundtrip ["id"; "note"] ["a;b"; "=c"]
              (fun v => ["1"; v])) as [table [H1 [H2 _]]].
  - discriminate.
  - intros v _. discriminate.
  - exists table. split; [exact H1 | exact H2].
Defined.

(** C3, as stated, fails on a cell that starts with [=]: the table holds
    the apostrophe, the reader returns it, and the table of the cell
    written with the apostrophe is the very same text. *)
Lemma createCsvBuffer_roundtrip_counterexample :
  createCsvBuffer (text_cells ["total"]) ["=1+1"] (textRow (fun v => [v]))
  = Ok ("total" ++ String newline "'=1+1")
  /\ createCsvBuffer (text_cells ["total"]) ["'=1+1"] (textRow (fun v => [v]))
     = Ok ("total" ++ String newline "'=1+1")
  /\ decodeCsv ("total" ++ String newline "'=1+1") = [["total"]; ["'=1+1"]]
  /\ decodeCsv ("total" ++ String newline "'=1+1")
     <> tableRows ["total"] ["=1+1"] (fun v => [v]).
Proof.
  repeat split. discriminate.
Qed.

(** ** Questionnaire items *)

Section ItemInduction.

Variable P : FHIRQuestionnaireItem -> Prop.
Hypothesis P_absent :
  forall l t ty a, P (QuestionnaireItem l t ty a None).
Hypothesis P_present :
  forall l t ty a cs, Forall P cs -> P (QuestionnaireItem l t ty a (Some cs)).

Fixpoint item_tree_ind (i : FHIRQuestionnaireItem) : P i :=
  match i with
  | QuestionnaireItem l t ty a None => P_absent l t ty a
  | QuestionnaireItem l t ty a (Some cs) =>
      P_present l t ty a cs
        ((fix all (xs : list FHIRQuestionnaireItem) : Forall P xs :=
            match xs with
            | [] => Forall_nil P
            | x :: xs' => Forall_cons x (item_tree_ind x) (all xs')
            end) cs)
  end.

End ItemInduction.

Lemma isLeaf_iff (i : FHIRQuestionnaireItem) :
  isLeaf i = true <-> item i = None \/ item i = Some [].
Proof.
  destruct i as [l t ty a [[|c cs]|]]; unfold isLeaf; simpl; split;
    try discriminate; auto; intros [H|H]; discriminate.
Qed.

Lemma flat_map_leaves (cs : list FHIRQuestionnaireItem) :
  Forall (fun i => leafItems i = filter isLeaf (preorder i)) cs ->
  flat_map leafItems cs = filter isLeaf (flat_map preorder cs).
Proof.
  induction 1 as [|c cs Hc _ IH]; [reflexivity|].
  cbn [flat_map]. rewrite filter_app, Hc, IH. reflexivity.
Qed.

Lemma leafItems_filter (i : FHIRQuestionnaireItem) :
  leafItems i = filter isLeaf (preorder i).
Proof.
  induction i as [l t ty a | l t ty a cs IH] using item_tree_ind.
  - reflexivity.
  - destruct cs as [|c cs]; [reflexivity|].
    cbn [leafItems preorder List.length Nat.eqb filter].
    change (isLeaf (QuestionnaireItem l t ty a (Some (c :: cs)))) with false.
    now apply flat_map_leaves.
Qed.

Lemma nodeCount_member (x : FHIRQuestionnaireItem) (cs : list FHIRQuestionnaireItem) :
  In x cs -> nodeCount x <= list_sum (map nodeCount cs).
Proof.
  induction cs as [|y ys IH]; intros Hx; [destruct Hx|].
  simpl. destruct Hx as [->|Hx]; [lia|]. specialize (IH Hx). lia.
Qed.

Lemma nodeCount_leaves (i n : FHIRQuestionnaireItem) :
  In n (leafItems i) -> nodeCount n <= nodeCount i.
Proof.
  revert n. induction i as [l t ty a | l t ty a cs IH] using item_tree_ind;
    intros n Hn.
  - destruct Hn as [<-|[]]. lia.
  - destruct cs as [|c cs]; [destruct Hn as [<-|[]]; lia|].
    cbn [leafItems List.length Nat.eqb] in Hn.
    apply in_flat_map in Hn. destruct Hn as [x [Hx Hn]].
    rewrite Forall_forall in IH. specialize (IH x Hx n Hn).
    cbn [nodeCount].
    pose proof (nodeCount_member x (c :: cs) Hx). lia.
Qed.

(** C4. The exported items are the nodes without children, in the order of
    a depth-first walk that meets a parent before its children and the
    children in their given order; no node with children is among them. On
    A(A1, A2(A2a)) they are A1 and A2a. *)
Theorem leafItems_preorder_leaves :
  (forall i, leafItems i = filter isLeaf (preorder i))
  /\ (forall q, questionnaireItems q
                = filter isLeaf
                    (flat_map preorder
                       (match questionnaire_item q with
                        | Some xs => xs
                        | None => []
                        end)))
  /\ (forall i n, In n (leafItems i) -> children n = [])
  /\ (forall i n, In n (preorder i) -> children n = [] -> In n (leafItems i))
  /\ leafItems (group "A" [leaf "A1"; group "A2" [leaf "A2a"]])
     = [leaf "A1"; leaf "A2a"].
Proof.
  split; [exact leafItems_filter|]. split; [|split; [|split]].
  - intros q. unfold questionnaireItems. apply flat_map_leaves.
    apply Forall_forall. intros i _. apply leafItems_filter.
  - intros i n. rewrite leafItems_filter, filter_In. intros [_ H].
    unfold isLeaf in H. destruct (children n); [reflexivity | discriminate].
  - intros i n Hn Hc. rewrite leafItems_filter, filter_In. split; [assumption|].
    unfold isLeaf. now rewrite Hc.
  - reflexivity.
Qed.

(** C9. An item whose child list is present and empty is exported like an
    item without the field: each is its own single leaf, an item is kept
    exactly when its child list is absent or has no element, and in the
    questionnaire table it has its row. *)
Theorem leafItems_empty_child_list :
  (forall l t ty a,
      leafItems (QuestionnaireItem l t ty a (Some []))
      = [QuestionnaireItem l t ty a (Some [])]
      /\ leafItems (QuestionnaireItem l t ty a None)
         = [QuestionnaireItem l t ty a None])
  /\ (forall i, leafItems i = [i] <-> item i = None \/ item i = Some [])
  /\ (forall l t ty,
         createCsvBuffer questionnaireHeaders
           (questionnaireItems
              {| questionnaire_item :=
                   Some [QuestionnaireItem l t ty None (Some [])] |})
           questionnaireRow
         = createCsvBuffer questionnaireHeaders
             (questionnaireItems
                {| questionnaire_item :=
                     Some [QuestionnaireItem l t ty None None] |})
             questionnaireRow
         /\ createCsvBuffer questionnaireHeaders
              (questionnaireItems
                 {| questionnaire_item :=
                      Some [QuestionnaireItem l t ty None (Some [])] |})
              questionnaireRow
            = Ok (encodeTable
                    [["linkId"; "text"; "type"; "options"];
                     [orEmpty l; orEmpty t; orEmpty ty; EmptyString]])).
Proof.
  split; [intros; split; reflexivity|]. split.
  - intros i. split.
    + destruct i as [l t ty a [[|c cs]|]]; simpl; auto.
      intros H. exfalso.
      assert (Hin : In (QuestionnaireItem l t ty a (Some (c :: cs)))
                      (leafItems c ++ flat_map leafItems cs)%list).
      { rewrite H. now left. }
      change (leafItems c ++ flat_map leafItems cs)%list
        with (flat_map leafItems (c :: cs)) in Hin.
      apply in_flat_map in Hin. destruct Hin as [x [Hx Hin]].
      apply nodeCount_leaves in Hin. cbn [nodeCount] in Hin.
      pose proof (nodeCount_member x (c :: cs) Hx). lia.
    + destruct i as [l t ty a cs]. simpl. intros [->| ->]; reflexivity.
  - intros l t ty. split; [reflexivity|].
    erewrite createCsvBuffer_Ok by reflexivity. reflexivity.
Qed.

(** ** Medication requests *)

Lemma elem_out_of_range {A : Type} (xs : list A) (i : nat) :
  List.length xs <= i -> elem xs i = None.
Proof. intros H. now apply nth_error_None. Qed.

Lemma medicationRequestRow_cells (value : Document FHIRMedicationRequest) :
  exists q u f,
    medicationRequestRow value
    = Ok [Some (id value); elem (referenceParts value) 1;
          elem (referenceParts value) 3; Some q; Some u; Some f].
Proof. unfold medicationRequestRow. eauto. Qed.

Lemma medicationRequestRow_six (value : Document FHIRMedicationRequest) :
  exists cells, medicationRequestRow value = Ok cells /\ cells <> [].
Proof.
  destruct (medicationRequestRow_cells value) as [q [u [f ->]]].
  eexists. split; [reflexivity | discriminate].
Qed.

Lemma mapM_total {A B : Type} (f : A -> result B) (P : B -> Prop) (xs : list A) :
  (forall x, exists y, f x = Ok y /\ P y) ->
  exists ys, mapM f xs = Ok ys /\ Forall P ys.
Proof.
  intros H. induction xs as [|x xs [ys [IH HP]]].
  - exists []. split; [reflexivity | constructor].
  - destruct (H x) as [y [Hy Py]]. exists (y :: ys). simpl.
    rewrite Hy, IH. split; [reflexivity | now constructor].
Qed.

(** C5. The reference is cut at its slashes, and the second and the fourth
    piece are the medication-code and the drug-code cell. A reference with
    fewer pieces, or none, leaves the cell [undefined]; the table then
    holds an empty cell there and the export goes on: building the table of
    medication requests never throws. A reference of two pieces gives its
    second piece as the medication code and an empty drug code. *)
Theorem medicationRequest_reference_cells :
  (forall values : list (Document FHIRMedicationRequest),
      exists rows table,
        mapM medicationRequestRow values = Ok rows
        /\ createCsvBuffer medicationRequestHeaders values medicationRequestRow
           = Ok table
        /\ decodeCsv table
           = map (map guarded)
               (map (map orEmpty) (medicationRequestHeaders :: rows)))
  /\ (forall value : Document FHIRMedicationRequest,
         let parts :=
           split "/" (orEmpty (medicationReference (content value) ?. reference)) in
         (exists q u f,
             medicationRequestRow value
             = Ok [Some (id value); nth_error parts 1; nth_error parts 3;
                   Some q; Some u; Some f]
             /\ createCsvBuffer medicationRequestHeaders [value] medicationRequestRow
                = Ok (encodeTable
                        [map orEmpty medicationRequestHeaders;
                         [id value; orEmpty (nth_error parts 1);
                          orEmpty (nth_error parts 3); q; u; f]]))
         /\ (List.length parts < 4 -> orEmpty (nth_error parts 3) = EmptyString)
         /\ (List.length parts < 2 -> orEmpty (nth_error parts 1) = EmptyString)
         /\ (medicationReference (content value) ?. reference = None ->
             parts = [EmptyString]))
  /\ createCsvBuffer medicationRequestHeaders
       [{| id := "m1";
           content :=
             {| medicationReference :=
                  Some {| reference := Some "medications/203160" |};
                dosageInstruction := None |} |}]
       medicationRequestRow
     = Ok ("id;medicationCode (RxNorm);drugCode (RxNorm);quantity;quantityUnit;frequencyPerDay"
           ++ String newline "m1;203160;;;;").
Proof.
  split; [|split; [|reflexivity]].
  - intros values.
    destruct (mapM_total medicationRequestRow (fun r => r <> []) values
                medicationRequestRow_six) as [rows [Hrows Hne]].
    exists rows. eexists. split; [exact Hrows|].
    split; [apply (createCsvBuffer_Ok _ _ _ _ Hrows)|].
    apply decode_encodeTable; [discriminate|].
    apply Forall_map. constructor; [discriminate|].
    eapply Forall_impl; [|exact Hne].
    intros r Hr E. destruct r; [congruence | discriminate].
  - intros value parts. split; [|split; [|split]].
    + destruct (medicationRequestRow_cells value) as [q [u [f H]]].
      exists q, u, f. split; [exact H|].
      rewrite (createCsvBuffer_Ok _ [value] _
                 [[Some (id value); elem (referenceParts value) 1;
                   elem (referenceParts value) 3; Some q; Some u; Some f]]).
      * reflexivity.
      * unfold mapM. now rewrite H.
    + intros H. rewrite (proj2 (nth_error_None parts 3)); [reflexivity | lia].
    + intros H. rewrite (proj2 (nth_error_None parts 1)); [reflexivity | lia].
    + intros H. subst parts. now rewrite H.
Qed.

(** ** The generator: questionnaires, then the branches of each user *)

Lemma emit_run (nm : string) (r : result string) (ar : Archive) :
  emit nm r ar
  = match r with
    | Ok buffer => ((ar ++ [{| name := nm; data := buffer |}])%list, Ok tt)
    | Throw e => (ar, Throw e)
    end.
Proof. destruct r; reflexivity. Qed.

Ltac branch_is_emit q :=
  intros ar; unfold emit, andThen, lift;
  destruct q; simpl; [reflexivity|];
  match goal with |- context [createCsvBuffer ?h ?v ?r] =>
    destruct (createCsvBuffer h v r); reflexivity
  end.

Lemma addUserAppointments_emit db u :
  forall ar, addUserAppointments db u ar
             = emit (u ++ "/appointments.csv")
                 (rs <- await (userAppointments db u) ;;
                  createCsvBuffer appointmentHeaders rs appointmentRow) ar.
Proof. unfold addUserAppointments. branch_is_emit (userAppointments db u). Qed.

Lemma addUserMedicationRequests_emit db u :
  forall ar, addUserMedicationRequests db u ar
             = emit (u ++ "/medicationRequests.csv")
                 (rs <- await (userMedicationRequests db u) ;;
                  createCsvBuffer medicationRequestHeaders rs medicationRequestRow) ar.
Proof.
  unfold addUserMedicationRequests. branch_is_emit (userMedicationRequests db u).
Qed.

Lemma addUserMessages_emit db u :
  forall ar, addUserMessages db u ar
             = emit (u ++ "/messages.csv")
                 (rs <- await (userMessages db u) ;;
                  createCsvBuffer messageHeaders rs messageRow) ar.
Proof. unfold addUserMessages. branch_is_emit (userMessages db u). Qed.

Lemma addUserObservations_emit K db u c :
  forall ar, addUserObservations K db u c ar
             = emit (u ++ "/" ++ c ++ ".csv")
                 (rs <- await (userObservations db u c) ;;
                  observationTable K c rs) ar.
Proof.
  unfold addUserObservations, observationTable.
  intros ar; unfold emit, andThen, lift.
  destruct (userObservations db u c); simpl; [reflexivity|].
  destruct (String.eqb c (UserObservationCollection_bloodPressure K));
    match goal with |- context [createCsvBuffer ?h ?v ?r] =>
      destruct (createCsvBuffer h v r); reflexivity
    end.
Qed.

Lemma addUserQuestionnaireResponses_emit K db u :
  forall ar, addUserQuestionnaireResponses K db u ar
             = emit (u ++ "/questionnaireResponses_kccq.csv")
                 (rs <- await (userQuestionnaireResponses db u) ;;
                  createCsvBuffer kccqHeaders (filter (isKccq K) rs) (kccqRow K)) ar.
Proof.
  unfold addUserQuestionnaireResponses.
  branch_is_emit (userQuestionnaireResponses db u).
Qed.

Lemma addUserSymptomScores_emit db u :
  forall ar, addUserSymptomScores db u ar
             = emit (u ++ "/symptomScores.csv")
                 (rs <- await (userSymptomScores db u) ;;
                  createCsvBuffer symptomScoreHeaders rs symptomScoreRow) ar.
Proof. unfold addUserSymptomScores. branch_is_emit (userSymptomScores db u). Qed.

Lemma userBranches_tables K db u :
  Forall2 emits (userBranches K db u) (userTables K db u).
Proof.
  unfold userBranches, userTables.
  apply Forall2_app.
  - repeat constructor.
    + exact (addUserAppointments_emit db u).
    + exact (addUserMedicationRequests_emit db u).
    + exact (addUserMessages_emit db u).
  - apply Forall2_app.
    + induction (UserObservationCollection_values K) as [|c cs IH]; simpl;
        constructor; [exact (addUserObservations_emit K db u c) | exact IH].
    + repeat constructor.
      * exact (addUserQuestionnaireResponses_emit K db u).
      * exact (addUserSymptomScores_emit db u).
Qed.

Lemma promiseAll_tables bs ts :
  Forall2 emits bs ts ->
  forall ar, promiseAll bs ar = ((ar ++ okEntries ts)%list, firstError ts).
Proof.
  induction 1 as [|b [nm r] bs ts Hb _ IH]; intros ar.
  - simpl. now rewrite app_nil_r.
  - cbn [promiseAll]. rewrite (Hb ar), emit_run. cbn [fst snd].
    destruct r as [buffer|e]; rewrite IH; cbn [okEntries flat_map snd fst firstError].
    + now rewrite <- app_assoc.
    + reflexivity.
Qed.

Lemma userBranches_run K db u ar :
  promiseAll (userBranches K db u) ar
  = ((ar ++ okEntries (userTables K db u))%list, firstError (userTables K db u)).
Proof. apply promiseAll_tables. apply userBranches_tables. Qed.

Lemma forEach_users_ok K db ids :
  (forall u, In u ids -> firstError (userTables K db u) = Ok tt) ->
  forall ar,
    forEach ids (fun u => promiseAll (userBranches K db u)) ar
    = ((ar ++ flat_map (fun u => okEntries (userTables K db u)) ids)%list, Ok tt).
Proof.
  induction ids as [|u ids IH]; intros H ar.
  - simpl. now rewrite app_nil_r.
  - cbn [forEach]. unfold andThen. rewrite userBranches_run.
    rewrite (H u (or_introl eq_refl)).
    rewrite IH by (intros v Hv; apply H; now right).
    cbn [flat_map]. now rewrite <- app_assoc.
Qed.

Lemma forEach_users_fail K db ids u e :
  In u ids -> firstError (userTables K db u) = Throw e ->
  forall ar, exists ar' e',
    forEach ids (fun u => promiseAll (userBranches K db u)) ar = (ar', Throw e').
Proof.
  induction ids as [|v ids IH]; intros Hin He ar; [destruct Hin|].
  cbn [forEach]. unfold andThen. rewrite userBranches_run.
  destruct (firstError (userTables K db v)) as [[]|e0] eqn:Ev.
  - destruct Hin as [->|Hin]; [congruence|]. now apply IH.
  - eauto.
Qed.

Lemma mapM_questionnaireRow (items : list FHIRQuestionnaireItem) :
  mapM questionnaireRow items
  = Ok (map (fun i =>
               [Some (orEmpty (linkId i)); Some (orEmpty (text i));
                Some (orEmpty (type i));
                Some (join "|" (map optionLabel
                                  (match answerOption i with
                                   | Some os => os
                                   | None => []
                                   end)))]) items).
Proof. apply mapM_Ok. reflexivity. Qed.

Lemma questionnaire_table (q : Document FHIRQuestionnaire) :
  createCsvBuffer questionnaireHeaders (questionnaireItems (content q))
    questionnaireRow
  = Ok (data (questionnaireEntry q)).
Proof.
  rewrite (createCsvBuffer_Ok _ _ _ _ (mapM_questionnaireRow _)).
  unfold questionnaireEntry. cbn [data map]. do 3 f_equal.
  rewrite map_map. reflexivity.
Qed.

Lemma forEach_questionnaires (qs : list (Document FHIRQuestionnaire)) :
  forall ar,
    forEach qs (fun questionnaire =>
      buffer <~ lift (createCsvBuffer questionnaireHeaders
                        (questionnaireItems (content questionnaire))
                        questionnaireRow) ;;
      append buffer ("questionnaire_" ++ id questionnaire ++ ".csv")) ar
    = ((ar ++ map questionnaireEntry qs)%list, Ok tt).
Proof.
  induction qs as [|q qs IH]; intros ar.
  - simpl. now rewrite app_nil_r.
  - cbn [forEach]. unfold andThen at 1. unfold andThen at 1.
    unfold lift at 1. rewrite questionnaire_table. unfold append at 1.
    rewrite IH. cbn [map]. rewrite <- app_assoc. reflexivity.
Qed.

Lemma addQuestionnaires_run db ar :
  addQuestionnaires db ar
  = match questionnaires db with
    | inr qs => ((ar ++ map questionnaireEntry qs)%list, Ok tt)
    | inl why => (ar, Throw (StoreError why))
    end.
Proof.
  unfold addQuestionnaires, andThen at 1, lift at 1.
  destruct (questionnaires db) as [why|qs]; [reflexivity|].
  cbn [await]. apply forEach_questionnaires.
Qed.

Lemma generatePatients_ok K db ids qs :
  questionnaires db = inr qs ->
  (forall u, In u ids -> firstError (userTables K db u) = Ok tt) ->
  generatePatients K db ids []
  = ((map questionnaireEntry qs
      ++ flat_map (fun u => okEntries (userTables K db u)) ids)%list, Ok tt).
Proof.
  intros Hq Hu. unfold generatePatients, andThen.
  rewrite addQuestionnaires_run, Hq. cbn [app].
  now apply forEach_users_ok.
Qed.

Lemma generatePatients_fail K db ids u e :
  In u ids -> firstError (userTables K db u) = Throw e ->
  exists ar e', generatePatients K db ids [] = (ar, Throw e').
Proof.
  intros Hin He. unfold generatePatients, andThen.
  rewrite addQuestionnaires_run.
  destruct (questionnaires db) as [why|qs]; [eauto|].
  now apply (forEach_users_fail K db ids u e).
Qed.

Lemma generatePatients_questionnaires_rejected K db ids why :
  questionnaires db = inl why ->
  generatePatients K db ids [] = ([], Throw (StoreError why)).
Proof.
  intros Hq. unfold generatePatients, andThen.
  now rewrite addQuestionnaires_run, Hq.
Qed.

(** ** The promise around the writer *)

Lemma fold_handle_settled evs st :
  promise st <> Pending -> promise (fold_left handle evs st) = promise st.
Proof.
  revert st. induction evs as [|ev evs IH]; intros st H; [reflexivity|].
  cbn [fold_left]. rewrite IH.
  - destruct ev; [reflexivity| |]; unfold handle, resolve, reject;
      destruct (promise st) eqn:E; try reflexivity; congruence.
  - destruct ev; cbn; [assumption| |]; unfold resolve, reject;
      destruct (promise st) eqn:E; cbn; congruence.
Qed.

Lemma fold_handle_pending evs st :
  promise st = Pending ->
  promise (fold_left handle evs st) = settle (chunks st) evs.
Proof.
  revert st. induction evs as [|ev evs IH]; intros st H; [assumption|].
  cbn [fold_left settle]. destruct ev as [chunk| |why].
  - now rewrite IH.
  - rewrite fold_handle_settled; unfold handle, resolve; rewrite H;
      [reflexivity | discriminate].
  - rewrite fold_handle_settled; unfold handle, reject; rewrite H;
      [reflexivity | discriminate].
Qed.

Lemma createZipBuffer_run lib generate :
  createZipBuffer lib generate
  = match generate [] with
    | (ar, Ok _) => settle [] (whileAppending lib ar ++ afterFinalize lib ar)%list
    | (ar, Throw e) =>
        match settle [] (whileAppending lib ar) with
        | Pending => Rejected e
        | p => p
        end
    end.
Proof.
  unfold createZipBuffer. destruct (generate []) as [ar [[]|e]].
  - rewrite <- fold_left_app. now apply fold_handle_pending.
  - pose proof (fold_handle_pending (whileAppending lib ar)
                  {| chunks := []; promise := Pending |} eq_refl) as H.
    cbn [chunks] in H. rewrite <- H. unfold reject.
    destruct (promise (fold_left handle (whileAppending lib ar)
                         {| chunks := []; promise := Pending |})) eqn:E;
      cbn [promise]; congruence.
Qed.

Lemma settle_without_end kept evs :
  ~ In EndEvent evs ->
  settle kept evs = Pending \/ exists why, settle kept evs = Rejected (WriterError why).
Proof.
  revert kept. induction evs as [|ev evs IH]; intros kept H; [now left|].
  destruct ev as [chunk| |why]; cbn [settle].
  - apply IH. intros Hin. apply H. now right.
  - exfalso. apply H. now left.
  - right. eauto.
Qed.

Lemma settle_error_first kept pre why post :
  ~ In EndEvent pre ->
  exists why', settle kept (pre ++ ErrorEvent why :: post)%list
               = Rejected (WriterError why').
Proof.
  revert kept. induction pre as [|ev pre IH]; intros kept H; [cbn; eauto|].
  destruct ev as [chunk| |why0]; cbn [app settle].
  - apply IH. intros Hin. apply H. now right.
  - exfalso. apply H. now left.
  - eauto.
Qed.

Lemma settle_fulfilled kept evs b :
  settle kept evs = Fulfilled b ->
  exists pre post,
    evs = (pre ++ EndEvent :: post)%list
    /\ (forall ev, In ev pre -> exists chunk, ev = DataEvent chunk)
    /\ b = Buffer_concat (kept ++ dataOf pre)%list.
Proof.
  revert kept. induction evs as [|ev evs IH]; intros kept H; [discriminate|].
  destruct ev as [chunk| |why]; cbn [settle] in H.
  - destruct (IH _ H) as [pre [post [-> [Hpre ->]]]].
    exists (DataEvent chunk :: pre), post. split; [reflexivity|]. split.
    + intros ev [<-|Hin]; [eauto | now apply Hpre].
    + cbn [dataOf flat_map app]. now rewrite <- app_assoc.
  - injection H as <-. exists [], evs. split; [reflexivity|]. split.
    + intros ev [].
    + cbn. now rewrite app_nil_r.
  - discriminate.
Qed.

Lemma settle_data_then_end kept cs post :
  settle kept (map DataEvent cs ++ EndEvent :: post)%list
  = Fulfilled (Buffer_concat (kept ++ cs)%list).
Proof.
  revert kept. induction cs as [|c cs IH]; intros kept; cbn [map app settle].
  - now rewrite app_nil_r.
  - rewrite IH. now rewrite <- app_assoc.
Qed.

Lemma createZipBuffer_throw lib generate ar e :
  endsAfterFinalize lib -> generate [] = (ar, Throw e) ->
  createZipBuffer lib generate = Rejected e
  \/ exists why, createZipBuffer lib generate = Rejected (WriterError why).
Proof.
  intros Hlib Hg. rewrite createZipBuffer_run, Hg.
  destruct (settle_without_end [] (whileAppending lib ar) (Hlib ar)) as [->|[why ->]].
  - now left.
  - right. eauto.
Qed.

Lemma settle_rejected kept evs e :
  settle kept evs = Rejected e -> exists why, e = WriterError why.
Proof.
  revert kept. induction evs as [|ev evs IH]; intros kept H; [discriminate|].
  destruct ev as [chunk| |why]; cbn [settle] in H.
  - now apply (IH _ H).
  - discriminate.
  - injection H as <-. eauto.
Qed.

Lemma createZipBuffer_rejected lib generate e :
  createZipBuffer lib generate = Rejected e ->
  (exists why, e = WriterError why) \/ exists ar, generate [] = (ar, Throw e).
Proof.
  rewrite createZipBuffer_run.
  destruct (generate []) as [ar [[]|e0]].
  - intros H. left. now apply settle_rejected in H.
  - destruct (settle [] (whileAppending lib ar)) as [|b|e1] eqn:E.
    + intros [= <-]. right. eauto.
    + discriminate.
    + intros [= <-]. left. now apply settle_rejected in E.
Qed.

(** ** Where an error of the generator comes from *)

Lemma firstError_In tables nm e :
  In (nm, Throw e) tables -> exists e', firstError tables = Throw e'.
Proof.
  induction tables as [|[nm' r] tables IH]; intros Hin; [destruct Hin|].
  cbn [firstError]. destruct r as [buffer|e0]; [|eauto].
  destruct Hin as [[=]|Hin]. now apply IH.
Qed.

Lemma firstError_Throw tables e :
  firstError tables = Throw e -> exists nm, In (nm, Throw e) tables.
Proof.
  induction tables as [|[nm r] tables IH]; intros H; [discriminate|].
  cbn [firstError] in H. destruct r as [buffer|e0].
  - destruct (IH H) as [nm' Hin]. exists nm'. now right.
  - injection H as ->. exists nm. now left.
Qed.

Lemma okEntries_names tables :
  firstError tables = Ok tt -> names (okEntries tables) = map fst tables.
Proof.
  induction tables as [|[nm r] tables IH]; intros H; [reflexivity|].
  cbn [firstError] in H. destruct r as [buffer|e]; [|discriminate].
  cbn. f_equal. now apply IH.
Qed.

Lemma userTables_names K db u : map fst (userTables K db u) = userEntryNames K u.
Proof.
  unfold userTables, userEntryNames. rewrite !map_app, map_map. reflexivity.
Qed.

Lemma table_throws {A : Type} (q : query A) (build : A -> result string) :
  (exists why, q = inl why)
  \/ (exists rs e, q = inr rs /\ build rs = Throw e) ->
  exists e, (rs <- await q ;; build rs) = Throw e.
Proof.
  intros [[why ->]|[rs [e [-> H]]]]; cbn; eauto.
Qed.

Lemma branchFailure_table K db u :
  branchFailure K db u -> exists nm e, In (nm, Throw e) (userTables K db u).
Proof.
  assert (Hobs : forall c e,
             In c (UserObservationCollection_values K) ->
             (rs <- await (userObservations db u c) ;; observationTable K c rs)
             = Throw e ->
             exists nm e', In (nm, Throw e') (userTables K db u)).
  { intros c e Hc He. exists (u ++ "/" ++ c ++ ".csv"), e.
    unfold userTables. apply in_or_app. right. apply in_or_app. left.
    apply in_map_iff. exists c. split; [now rewrite He | assumption]. }
  intros [why Hq | rs v e Hq Hv He | why Hq | why Hq | rs v e Hq Hv He
         | c why Hc Hq | c rs v e Hc Hbp Hq Hv He | c rs v e Hc Hbp Hq Hv He
         | why Hq | rs v e Hq Hv He | why Hq | rs v e Hq Hv He].
  - eexists _, _. unfold userTables. rewrite Hq. cbn. left. reflexivity.
  - destruct (createCsvBuffer_Throw appointmentHeaders rs appointmentRow v e Hv He)
      as [e' He'].
    eexists _, _. unfold userTables. rewrite Hq. cbn [await bind]. rewrite He'.
    left. reflexivity.
  - eexists _, _. unfold userTables. rewrite Hq. cbn. right. left. reflexivity.
  - eexists _, _. unfold userTables. rewrite Hq. cbn. do 2 right. left. reflexivity.
  - destruct (createCsvBuffer_Throw messageHeaders rs messageRow v e Hv He)
      as [e' He'].
    eexists _, _. unfold userTables. rewrite Hq. cbn [await bind]. rewrite He'.
    do 2 right. left. reflexivity.
  - apply (Hobs c (StoreError why) Hc). now rewrite Hq.
  - destruct (createCsvBuffer_Throw bloodPressureHeaders rs (bloodPressureRow K) v e
                Hv He) as [e' He'].
    apply (Hobs c e' Hc). rewrite Hq. cbn [await bind]. unfold observationTable.
    rewrite Hbp, String.eqb_refl. exact He'.
  - destruct (createCsvBuffer_Throw observationHeaders rs observationRow v e Hv He)
      as [e' He'].
    apply (Hobs c e' Hc). rewrite Hq. cbn [await bind]. unfold observationTable.
    apply String.eqb_neq in Hbp. now rewrite Hbp.
  - eexists _, _. unfold userTables. rewrite Hq. cbn [await bind].
    apply in_or_app. right. apply in_or_app. right. left. reflexivity.
  - destruct (createCsvBuffer_Throw kccqHeaders (filter (isKccq K) rs) (kccqRow K)
                v e Hv He) as [e' He'].
    eexists _, _. unfold userTables. rewrite Hq. cbn [await bind]. rewrite He'.
    apply in_or_app. right. apply in_or_app. right. left. reflexivity.
  - eexists _, _. unfold userTables. rewrite Hq. cbn [await bind].
    apply in_or_app. right. apply in_or_app. right. right. left. reflexivity.
  - destruct (createCsvBuffer_Throw symptomScoreHeaders rs symptomScoreRow v e Hv He)
      as [e' He'].
    eexists _, _. unfold userTables. rewrite Hq. cbn [await bind]. rewrite He'.
    apply in_or_app. right. apply in_or_app. right. right. left. reflexivity.
Qed.

Lemma branchFailure_throws K db ids u :
  In u ids -> branchFailure K db u ->
  exists ar e, generatePatients K db ids [] = (ar, Throw e).
Proof.
  intros Hin Hf. destruct (branchFailure_table K db u Hf) as [nm [e Ht]].
  destruct (firstError_In _ _ _ Ht) as [e' He'].
  now apply (generatePatients_fail K db ids u e').
Qed.

Lemma mapM_Throw_inv {A B : Type} (f : A -> result B) (xs : list A) (e : JsError) :
  mapM f xs = Throw e -> exists x, In x xs /\ f x = Throw e.
Proof.
  induction xs as [|x xs IH]; [discriminate|]. cbn [mapM].
  destruct (f x) as [y|e0] eqn:E; cbn [bind].
  - destruct (mapM f xs); cbn [bind]; [discriminate|].
    intros [= <-]. destruct (IH eq_refl) as [x' [Hin Hx']]. exists x'.
    split; [now right | assumption].
  - intros [= <-]. exists x. split; [now left | assumption].
Qed.

Lemma createCsvBuffer_Throw_inv {T : Type} headers (values : list T) row e :
  createCsvBuffer headers values row = Throw e ->
  exists v, In v values /\ row v = Throw e.
Proof.
  unfold createCsvBuffer. rewrite mapM_escapeCsvField. cbn [bind].
  destruct (mapM _ values) as [lines|e0] eqn:E; cbn [bind]; [discriminate|].
  intros [= <-]. apply mapM_Throw_inv in E. destruct E as [v [Hin Hv]].
  exists v. split; [assumption|].
  destruct (row v) as [cells|e1] eqn:Er; cbn [bind] in Hv; [|congruence].
  rewrite mapM_escapeCsvField in Hv. discriminate.
Qed.

Ltac row_error :=
  intros;
  repeat match goal with
         | H : context [match ?x with _ => _ end] |- _ =>
             lazymatch x with
             | context [match _ with _ => _ end] => fail
             | _ => destruct x; cbn in H
             end
         end;
  try discriminate;
  match goal with
  | H : Throw _ = Throw _ |- _ => injection H as <-; auto
  end.

Lemma appointmentRow_error v e :
  appointmentRow v = Throw e -> e = TypeError \/ e = RangeError.
Proof.
  unfold appointmentRow, required_toISOString, toISOString, bind. row_error.
Qed.

Lemma messageRow_error v e :
  messageRow v = Throw e -> e = TypeError \/ e = RangeError.
Proof.
  unfold messageRow, optional_toISOString, toISOString, bind. row_error.
Qed.

Lemma bloodPressureRow_error K v e :
  bloodPressureRow K v = Throw e -> e = TypeError \/ e = RangeError.
Proof.
  unfold bloodPressureRow, optional_toISOString, toISOString, bind. row_error.
Qed.

Lemma observationRow_error v e :
  observationRow v = Throw e -> e = TypeError \/ e = RangeError.
Proof.
  unfold observationRow, optional_toISOString, toISOString, bind. row_error.
Qed.

Lemma kccqRow_error K v e :
  kccqRow K v = Throw e -> e = TypeError \/ e = RangeError.
Proof.
  unfold kccqRow, optional_toISOString, toISOString, bind. row_error.
Qed.

Lemma symptomScoreRow_error v e :
  symptomScoreRow v = Throw e -> e = TypeError \/ e = RangeError.
Proof.
  unfold symptomScoreRow, required_toString, required_toISOString, toISOString, bind.
  row_error.
Qed.

Lemma table_raisedInside {A T : Type} (q : query A) headers
    (pick : A -> list T) row e :
  (forall v e', row v = Throw e' -> e' = TypeError \/ e' = RangeError) ->
  (rs <- await q ;; createCsvBuffer headers (pick rs) row) = Throw e ->
  raisedInside e.
Proof.
  intros Hrow. destruct q as [why|rs]; cbn [await bind].
  - intros [= <-]. right. right. eauto.
  - intros H. apply createCsvBuffer_Throw_inv in H. destruct H as [v [_ Hv]].
    destruct (Hrow v e Hv) as [->| ->]; [left | right; left]; reflexivity.
Qed.

Lemma userTables_raisedInside K db u nm e :
  In (nm, Throw e) (userTables K db u) -> raisedInside e.
Proof.
  unfold userTables. intros H.
  apply in_app_or in H. destruct H as [H|H].
  - destruct H as [[= _ H]|[[= _ H]|[[= _ H]|[]]]].
    + exact (table_raisedInside _ _ (fun rs => rs) _ e appointmentRow_error H).
    + refine (table_raisedInside _ _ (fun rs => rs) medicationRequestRow e _ H).
      intros v e' Hv. destruct (medicationRequestRow_cells v) as [q [x [f Hc]]].
      congruence.
    + exact (table_raisedInside _ _ (fun rs => rs) _ e messageRow_error H).
  - apply in_app_or in H. destruct H as [H|H].
    + apply in_map_iff in H. destruct H as [c [[= _ H] _]].
      unfold observationTable in H.
      destruct (String.eqb c (UserObservationCollection_bloodPressure K)).
      * exact (table_raisedInside _ _ (fun rs => rs) _ e (bloodPressureRow_error K) H).
      * exact (table_raisedInside _ _ (fun rs => rs) _ e observationRow_error H).
    + destruct H as [[= _ H]|[[= _ H]|[]]].
      * exact (table_raisedInside _ _ (filter (isKccq K)) _ e (kccqRow_error K) H).
      * exact (table_raisedInside _ _ (fun rs => rs) _ e symptomScoreRow_error H).
Qed.

Lemma forEach_users_error K db ids ar ar' e :
  forEach ids (fun u => promiseAll (userBranches K db u)) ar = (ar', Throw e) ->
  exists u, In u ids /\ firstError (userTables K db u) = Throw e.
Proof.
  revert ar. induction ids as [|u ids IH]; intros ar; [discriminate|].
  cbn [forEach]. unfold andThen. rewrite userBranches_run.
  destruct (firstError (userTables K db u)) as [[]|e0] eqn:E.
  - intros H. destruct (IH _ H) as [v [Hv Hf]]. exists v.
    split; [now right | assumption].
  - intros [= _ <-]. exists u. split; [now left | exact E].
Qed.

Lemma generatePatients_raisedInside K db ids ar e :
  generatePatients K db ids [] = (ar, Throw e) -> raisedInside e.
Proof.
  unfold generatePatients, andThen. rewrite addQuestionnaires_run.
  destruct (questionnaires db) as [why|qs].
  - intros [= _ <-]. right. right. eauto.
  - intros H. apply forEach_users_error in H. destruct H as [u [_ Hf]].
    apply firstError_Throw in Hf. destruct Hf as [nm Hin].
    now apply (userTables_raisedInside K db u nm).
Qed.

(** ** The exports *)

Lemma inOrganization_iff org (p : Document User) :
  inOrganization org p = true <-> organization (content p) = Some org.
Proof.
  unfold inOrganization. destruct (organization (content p)) as [o|].
  - rewrite String.eqb_eq. split; [now intros -> | now intros [= ->]].
  - split; discriminate.
Qed.

Lemma names_app (a b : Archive) : names (a ++ b)%list = (names a ++ names b)%list.
Proof. apply map_app. Qed.

Lemma names_users K db ids :
  (forall u, In u ids -> firstError (userTables K db u) = Ok tt) ->
  names (flat_map (fun u => okEntries (userTables K db u)) ids)
  = flat_map (userEntryNames K) ids.
Proof.
  induction ids as [|u ids IH]; intros H; [reflexivity|].
  cbn [flat_map]. rewrite names_app.
  rewrite okEntries_names by (apply H; now left).
  rewrite userTables_names.
  rewrite IH by (intros v Hv; apply H; now right). reflexivity.
Qed.

(** C6. Given the patients the store returns, the export for an
    organization takes the users whose organization field is the given id,
    character for character, and no other; when every table of these users
    is built, the archive holds the questionnaire tables and the tables of
    exactly these users; and when no patient matches, generation succeeds
    with the questionnaire tables alone, so that the call delivers whatever
    the writer makes of them: a buffer once the writer has sent its chunks
    and its end. *)
Theorem exportPatientDataForOrganization_members K db lib org patients :
  getAllPatients db = inr patients ->
  let ids := map id (filter (inOrganization org) patients) in
  exportPatientDataForOrganization K db lib org
  = createZipBuffer lib (generatePatients K db ids)
  /\ (forall u, In u ids <->
                exists p, In p patients /\ id p = u
                          /\ organization (content p) = Some org)
  /\ (forall qs,
         questionnaires db = inr qs ->
         (forall u, In u ids -> firstError (userTables K db u) = Ok tt) ->
         exists ar,
           generatePatients K db ids [] = (ar, Ok tt)
           /\ names ar
              = app (map (fun q => "questionnaire_" ++ id q ++ ".csv") qs)
                  (flat_map (userEntryNames K) ids))
  /\ (forall qs,
         questionnaires db = inr qs ->
         (forall p, In p patients -> organization (content p) <> Some org) ->
         generatePatients K db ids [] = (map questionnaireEntry qs, Ok tt)
         /\ exportPatientDataForOrganization K db lib org
            = settle [] (whileAppending lib (map questionnaireEntry qs)
                         ++ afterFinalize lib (map questionnaireEntry qs))%list
         /\ (forall cs post,
                (whileAppending lib (map questionnaireEntry qs)
                 ++ afterFinalize lib (map questionnaireEntry qs))%list
                = (map DataEvent cs ++ EndEvent :: post)%list ->
                exportPatientDataForOrganization K db lib org
                = Fulfilled (Buffer_concat cs)))
  /\ inOrganization "stanford"
       {| id := "p2"; content := {| organization := Some "Stanford" |} |} = false
  /\ inOrganization "stanford"
       {| id := "p3"; content := {| organization := Some "stanford.edu" |} |} = false
  /\ inOrganization "stanford"
       {| id := "p1"; content := {| organization := Some "jhu" |} |} = false.
Proof.
  intros Hp ids.
  assert (Hexp : exportPatientDataForOrganization K db lib org
                 = createZipBuffer lib (generatePatients K db ids)).
  { unfold exportPatientDataForOrganization. rewrite Hp. reflexivity. }
  split; [exact Hexp|]. split; [|split; [|split; [|repeat split]]].
  - intros u. subst ids. rewrite in_map_iff. split.
    + intros [p [Hid Hin]]. apply filter_In in Hin. destruct Hin as [Hin Ho].
      exists p. repeat split; try assumption. now apply inOrganization_iff.
    + intros [p [Hin [Hid Ho]]]. exists p. split; [assumption|].
      apply filter_In. split; [assumption | now apply inOrganization_iff].
  - intros qs Hq Hu. eexists. split; [exact (generatePatients_ok K db ids qs Hq Hu)|].
    rewrite names_app, (names_users K db ids Hu). f_equal.
    unfold names. rewrite map_map. reflexivity.
  - intros qs Hq Hnone.
    assert (Hids : ids = []).
    { subst ids. destruct (filter (inOrganization org) patients) as [|p ps] eqn:E;
        [reflexivity|].
      assert (Hin : In p (filter (inOrganization org) patients))
        by (rewrite E; now left).
      apply filter_In in Hin. destruct Hin as [Hin Ho].
      apply inOrganization_iff in Ho. now destruct (Hnone p Hin). }
    assert (Hgen : generatePatients K db ids [] = (map questionnaireEntry qs, Ok tt)).
    { rewrite Hids. rewrite (generatePatients_ok K db [] qs Hq).
      - cbn [flat_map]. now rewrite app_nil_r.
      - intros u []. }
    split; [exact Hgen|].
    assert (Hrun : exportPatientDataForOrganization K db lib org
                   = settle [] (whileAppending lib (map questionnaireEntry qs)
                                ++ afterFinalize lib (map questionnaireEntry qs))%list).
    { rewrite Hexp, createZipBuffer_run, Hgen. reflexivity. }
    split; [exact Hrun|].
    intros cs post Hev. rewrite Hrun, Hev. apply settle_data_then_end.
Qed.

Lemma exportPatientDataForOrganization_members_witness :
  exportPatientDataForOrganization sampleData sampleStore sampleArchiver "stanford"
  = createZipBuffer sampleArchiver (generatePatients sampleData sampleStore ["p0"]).
Proof.
  exact (proj1 (exportPatientDataForOrganization_members
                  sampleData sampleStore sampleArchiver "stanford" samplePatients
                  eq_refl)).
Defined.

(** C7. When the user lookup finds no record, the export for a user is
    rejected with the not-found error and delivers no buffer; when it finds
    one, whatever the export ends with, it is not a not-found error. *)
Theorem exportPatientDataForUser_notFound K db lib userId :
  (getUser db userId = inr None ->
   exportPatientDataForUser K db lib userId
   = Rejected (HttpsError "not-found" ("Patient with ID " ++ userId ++ " not found"))
   /\ noBuffer (exportPatientDataForUser K db lib userId)
   /\ exists e, exportPatientDataForUser K db lib userId = Rejected e
                /\ isNotFound e)
  /\ (forall patient e,
         getUser db userId = inr (Some patient) ->
         exportPatientDataForUser K db lib userId = Rejected e ->
         ~ isNotFound e)
  /\ exportPatientDataForUser sampleData sampleStore sampleArchiver "nobody"
     = Rejected (HttpsError "not-found" "Patient with ID nobody not found")
  /\ exportPatientDataForUser sampleData sampleStore sampleArchiver "p0"
     = Fulfilled
         (String.concat "|"
            ("questionnaire_0.csv" :: userEntryNames sampleData "p0")).
Proof.
  split; [|split; [|split; reflexivity]].
  - intros Hq. unfold exportPatientDataForUser. rewrite Hq. cbn [await].
    split; [reflexivity|]. split; [intros b; discriminate|].
    eexists. split; [reflexivity|]. unfold isNotFound. eauto.
  - intros patient e Hq. unfold exportPatientDataForUser. rewrite Hq. cbn [await].
    unfold createPatientsZipBuffer. intros H [message ->].
    apply createZipBuffer_rejected in H. destruct H as [[why H]|[ar H]].
    + discriminate.
    + apply generatePatients_raisedInside in H.
      destruct H as [H|[H|[why H]]]; discriminate.
Qed.

(** C8. With a writer that signals its end only after it was finalized, an
    error thrown while the archive is generated (a rejected store query or
    a projector exception, in the questionnaire step or in any branch of
    any user) and an error event of the writer each leave the promise
    rejected; a buffer is delivered only when the generator returned and
    the writer reached its end without an error, and it is then made of all
    the chunks the writer sent. *)
Theorem createZipBuffer_failure K db lib userIds :
  endsAfterFinalize lib ->
  (forall generate ar e,
      generate [] = (ar, Throw e) ->
      (exists e', createZipBuffer lib generate = Rejected e')
      /\ noBuffer (createZipBuffer lib generate))
  /\ (forall why,
         questionnaires db = inl why ->
         exists e', createPatientsZipBuffer K db lib userIds = Rejected e')
  /\ (forall u,
         In u userIds -> branchFailure K db u ->
         exists e', createPatientsZipBuffer K db lib userIds = Rejected e')
  /\ (forall generate ar r pre why post,
         generate [] = (ar, r) ->
         (whileAppending lib ar ++ afterFinalize lib ar)%list
         = (pre ++ ErrorEvent why :: post)%list ->
         ~ In EndEvent pre ->
         exists e', createZipBuffer lib generate = Rejected e')
  /\ (forall generate b,
         createZipBuffer lib generate = Fulfilled b ->
         exists ar pre post,
           generate [] = (ar, Ok tt)
           /\ (whileAppending lib ar ++ afterFinalize lib ar)%list
              = (pre ++ EndEvent :: post)%list
           /\ (forall ev, In ev pre -> exists chunk, ev = DataEvent chunk)
           /\ b = Buffer_concat (dataOf pre)).
Proof.
  intros Hlib.
  assert (Hthrow : forall generate ar e,
             generate [] = (ar, Throw e) ->
             exists e', createZipBuffer lib generate = Rejected e').
  { intros generate ar e Hg.
    destruct (createZipBuffer_throw lib generate ar e Hlib Hg) as [H|[why H]];
      eauto. }
  split; [|split; [|split; [|split]]].
  - intros generate ar e Hg. destruct (Hthrow generate ar e Hg) as [e' He'].
    split; [eauto|]. intros b. rewrite He'. discriminate.
  - intros why Hq. unfold createPatientsZipBuffer.
    apply (Hthrow _ [] (StoreError why)).
    now apply generatePatients_questionnaires_rejected.
  - intros u Hin Hf. unfold createPatientsZipBuffer.
    destruct (branchFailure_throws K db userIds u Hin Hf) as [ar [e Hg]].
    now apply (Hthrow _ ar e).
  - intros generate ar r pre why post Hg Hev Hpre. destruct r as [[]|e].
    + rewrite createZipBuffer_run, Hg, Hev.
      destruct (settle_error_first [] pre why post Hpre) as [why' ->]. eauto.
    + now apply (Hthrow generate ar e).
  - intros generate b. rewrite createZipBuffer_run.
    destruct (generate []) as [ar [[]|e]] eqn:Hg.
    + intros H. apply settle_fulfilled in H.
      destruct H as [pre [post [Hev [Hpre ->]]]]. exists ar, pre, post.
      repeat split; assumption.
    + destruct (settle_without_end [] (whileAppending lib ar) (Hlib ar))
        as [->|[why ->]]; discriminate.
Qed.

Lemma createZipBuffer_failure_witness :
  exists e',
    createPatientsZipBuffer sampleData sampleStore sampleArchiver ["p0"; "p1"]
    = Rejected e'.
Proof.
  refine (proj1 (proj2 (proj2
            (createZipBuffer_failure sampleData sampleStore sampleArchiver
               ["p0"; "p1"] _))) "p1" _ _).
  - intros ar H. exact H.
  - right. left. reflexivity.
  - eapply symptomScore_throws.
    + reflexivity.
    + left. reflexivity.
    + reflexivity.
Defined.

(** ** Required fields of symptom scores and appointments *)

(** C10, as the code has it: the symptom-score projector converts
    [overallScore], [dizzinessScore] and [date], and the appointment
    projector converts [created], [start] and [end], without a guard: a
    record that lacks one of them makes the projector throw, no table is
    built, and the export that meets the record is rejected; with these
    fields present and the dates valid the projection succeeds. The
    appointment [status] is only read: an appointment without it projects,
    with an [undefined] cell that the table holds as an empty cell. *)
Theorem required_fields_unguarded :
  (forall value : Document SymptomScore,
      overallScore (content value) = None
      \/ dizzinessScore (content value) = None
      \/ date (content value) = None ->
      symptomScoreRow value = Throw TypeError)
  /\ (forall (value : Document SymptomScore) o z d,
         overallScore (content value) = Some o ->
         dizzinessScore (content value) = Some z ->
         date (content value) = Some (ValidDate d) ->
         exists cells,
           symptomScoreRow value = Ok cells /\ List.length cells = 9
           /\ nth_error cells 1 = Some (Some (decimalText o))
           /\ nth_error cells 6 = Some (Some (decimalText z))
           /\ nth_error cells 7 = Some (Some d))
  /\ (forall value : Document FHIRAppointment,
         created (content value) = None
         \/ start (content value) = None
         \/ end_ (content value) = None ->
         exists e, appointmentRow value = Throw e)
  /\ (forall (value : Document FHIRAppointment) c s e,
         created (content value) = Some (ValidDate c) ->
         start (content value) = Some (ValidDate s) ->
         end_ (content value) = Some (ValidDate e) ->
         appointmentRow value
         = Ok [Some (id value); status (content value); Some c; Some s; Some e]
         /\ createCsvBuffer appointmentHeaders [value] appointmentRow
            = Ok (encodeTable
                    [["id"; "status"; "created"; "start"; "end"];
                     [id value; orEmpty (status (content value)); c; s; e]]))
  /\ (forall K db lib userIds u,
         endsAfterFinalize lib ->
         In u userIds ->
         (exists rs v,
             userSymptomScores db u = inr rs /\ In v rs
             /\ (overallScore (content v) = None
                 \/ dizzinessScore (content v) = None
                 \/ date (content v) = None))
         \/ (exists rs v,
                userAppointments db u = inr rs /\ In v rs
                /\ (created (content v) = None
                    \/ start (content v) = None
                    \/ end_ (content v) = None)) ->
         exists e', createPatientsZipBuffer K db lib userIds = Rejected e').
Proof.
  assert (Hscore : forall value : Document SymptomScore,
             overallScore (content value) = None
             \/ dizzinessScore (content value) = None
             \/ date (content value) = None ->
             symptomScoreRow value = Throw TypeError).
  { intros value H. unfold symptomScoreRow.
    destruct (overallScore (content value)) as [o|]; [|reflexivity].
    destruct (dizzinessScore (content value)) as [z|]; [|reflexivity].
    destruct (date (content value)) as [d|]; [|reflexivity].
    destruct H as [H|[H|H]]; discriminate. }
  assert (Happt : forall value : Document FHIRAppointment,
             created (content value) = None
             \/ start (content value) = None
             \/ end_ (content value) = None ->
             exists e, appointmentRow value = Throw e).
  { intros value H. unfold appointmentRow.
    destruct (created (content value)) as [[c|]|]; cbn; eauto.
    destruct (start (content value)) as [[s|]|]; cbn; eauto.
    destruct (end_ (content value)) as [[e|]|]; cbn; eauto.
    destruct H as [H|[H|H]]; discriminate. }
  split; [exact Hscore|]. split; [|split; [exact Happt|split]].
  - intros value o z d Ho Hz Hd. unfold symptomScoreRow.
    rewrite Ho, Hz, Hd. cbn. eexists. repeat split.
  - intros value c s e Hc Hs He.
    assert (Hrow : appointmentRow value
                   = Ok [Some (id value); status (content value);
                         Some c; Some s; Some e]).
    { unfold appointmentRow. now rewrite Hc, Hs, He. }
    split; [exact Hrow|].
    rewrite (createCsvBuffer_Ok _ [value] _
               [[Some (id value); status (content value); Some c; Some s; Some e]]).
    + reflexivity.
    + unfold mapM. now rewrite Hrow.
  - intros K db lib userIds u Hlib Hin H.
    assert (Hf : branchFailure K db u).
    { destruct H as [[rs [v [Hq [Hv Hm]]]]|[rs [v [Hq [Hv Hm]]]]].
      - exact (symptomScore_throws K db u rs v TypeError Hq Hv (Hscore v Hm)).
      - destruct (Happt v Hm) as [e He].
        exact (appointment_throws K db u rs v e Hq Hv He). }
    unfold createPatientsZipBuffer.
    destruct (branchFailure_throws K db userIds u Hin Hf) as [ar [e Hg]].
    destruct (createZipBuffer_throw lib _ ar e Hlib Hg) as [H'|[why H']]; eauto.
Qed.

(** C10, as stated, fails for the appointment status: an appointment
    without a status is projected, and its row holds an empty cell. *)
Lemma appointment_without_status_counterexample :
  appointmentRow
    {| id := "a1";
       content :=
         {| status := None;
            created := Some (ValidDate "2025-01-05T09:00:00.000Z");
            start := Some (ValidDate "2025-01-06T09:00:00.000Z");
            end_ := Some (ValidDate "2025-01-06T10:00:00.000Z") |} |}
  = Ok [Some "a1"; None; Some "2025-01-05T09:00:00.000Z";
        Some "2025-01-06T09:00:00.000Z"; Some "2025-01-06T10:00:00.000Z"]
  /\ createCsvBuffer appointmentHeaders
       [{| id := "a1";
           content :=
             {| status := None;
                created := Some (ValidDate "2025-01-05T09:00:00.000Z");
                start := Some (ValidDate "2025-01-06T09:00:00.000Z");
                end_ := Some (ValidDate "2025-01-06T10:00:00.000Z") |} |}]
       appointmentRow
     = Ok ("id;status;created;start;end"
           ++ String newline
                "a1;;2025-01-05T09:00:00.000Z;2025-01-06T09:00:00.000Z;2025-01-06T10:00:00.000Z").
Proof. split; reflexivity. Qed.

(** * Further properties of the encoder and the table builder *)

Lemma length_append (a b : string) :
  String.length (a ++ b) = String.length a + String.length b.
Proof. induction a as [|x a IH]; simpl; [reflexivity | now rewrite IH]. Qed.

Lemma double_quotes_length (s : string) :
  String.length s <= String.length (double_quotes s) <= 2 * String.length s.
Proof.
  induction s as [|c s IH]; simpl; [lia|].
  destruct (Ascii.eqb c dquote); simpl; lia.
Qed.

Lemma guarded_cases (raw : string) :
  (test_formula_prefix (Some raw) = true /\ guarded raw = String "'" raw)
  \/ (test_formula_prefix (Some raw) = false /\ guarded raw = raw).
Proof.
  unfold guarded. destruct (test_formula_prefix (Some raw)); [left | right];
    split; reflexivity.
Qed.

Lemma guarded_no_formula_prefix (raw : string) :
  test_formula_prefix (Some (guarded raw)) = false.
Proof.
  destruct (guarded_cases raw) as [[_ ->]|[H ->]]; [reflexivity | exact H].
Qed.

Lemma decode_quoteIfNeeded (v : string) : decodeCsv (quoteIfNeeded v) = [[v]].
Proof. exact (decode_row_end v [] []). Qed.

Lemma quoteIfNeeded_injective (a b : string) :
  quoteIfNeeded a = quoteIfNeeded b -> a = b.
Proof.
  intros H. pose proof (decode_quoteIfNeeded a) as Ha.
  rewrite H, decode_quoteIfNeeded in Ha. congruence.
Qed.

(** X1. Whatever the field, the text the encoder writes does not start with
    one of [= + - @], and neither does the value a reader gets back from
    it. *)
Theorem escapeCsvField_never_formula (raw : string) :
  exists written,
    escapeCsvField (Some raw) = Ok (Some written)
    /\ (forall c rest, written = String c rest ->
                       ~ In c ["="; "+"; "-"; "@"]%char)
    /\ decodeCsv written = [[guarded raw]]
    /\ (forall c rest, guarded raw = String c rest ->
                       ~ In c ["="; "+"; "-"; "@"]%char).
Proof.
  exists (encodeText raw). split; [apply escapeCsvField_text|].
  assert (Hg : forall c rest, guarded raw = String c rest ->
                              ~ In c ["="; "+"; "-"; "@"]%char).
  { intros c rest E Hin. pose proof (guarded_no_formula_prefix raw) as H.
    unfold test_formula_prefix in H. simpl ToString in H. rewrite E in H.
    apply (ascii_in_In formulaChars) in Hin. congruence. }
  split; [|split; [apply decode_quoteIfNeeded | exact Hg]].
  intros c rest E. unfold encodeText, quoteIfNeeded in E.
  destruct (test_special (Some (guarded raw))).
  - unfold wrap_quotes in E. injection E as <- _.
    intros [H|[H|[H|[H|[]]]]]; discriminate.
  - now apply (Hg c rest).
Qed.

(** X2. Two fields are written alike exactly when they agree after the
    formula guard: when they are equal, or when one starts with one of
    [= + - @] and the other is the same text behind an apostrophe. *)
Theorem escapeCsvField_collisions (a b : string) :
  (escapeCsvField (Some a) = escapeCsvField (Some b) <-> guarded a = guarded b)
  /\ (guarded a = guarded b <->
      a = b
      \/ (test_formula_prefix (Some a) = true /\ b = String "'" a)
      \/ (test_formula_prefix (Some b) = true /\ a = String "'" b)).
Proof.
  split.
  - rewrite !escapeCsvField_text. unfold encodeText. split.
    + intros [= H]. now apply quoteIfNeeded_injective.
    + now intros ->.
  - split.
    + intros H.
      destruct (guarded_cases a) as [[Ha Ea]|[Ha Ea]];
        destruct (guarded_cases b) as [[Hb Eb]|[Hb Eb]];
        rewrite Ea, Eb in H.
      * left. now injection H.
      * right. left. split; [assumption | now symmetry].
      * right. right. split; assumption.
      * now left.
    + intros [->|[[Ha ->]|[Hb ->]]]; [reflexivity| |].
      * unfold guarded at 1. rewrite Ha. reflexivity.
      * unfold guarded at 2. rewrite Hb. reflexivity.
Qed.

(** X3. The encoder never throws: a string is written as a string and an
    [undefined] cell stays [undefined]; the branch in which [replace]
    would be called on [undefined] is never taken. *)
Theorem escapeCsvField_never_throws (field : cell) :
  exists written,
    escapeCsvField field = Ok written
    /\ (field = None <-> written = None)
    /\ orEmpty written = encodeText (orEmpty field).
Proof.
  exists (option_map encodeText field). split; [apply escapeCsvField_total|].
  destruct field; simpl; repeat split; congruence.
Qed.

(** X4. The written field is at least as long as the field and at most
    twice as long plus two. *)
Theorem escapeCsvField_length (raw : string) :
  exists written,
    escapeCsvField (Some raw) = Ok (Some written)
    /\ String.length raw <= String.length written <= 2 * String.length raw + 2.
Proof.
  exists (encodeText raw). split; [apply escapeCsvField_text|].
  unfold encodeText, quoteIfNeeded.
  destruct (guarded_cases raw) as [[Hf ->]|[Hf ->]].
  - destruct raw as [|c rest]; [discriminate|].
    assert (Hc : Ascii.eqb "'" dquote = false) by reflexivity.
    assert (Hq : Ascii.eqb c dquote = false).
    { unfold test_formula_prefix in Hf. simpl in Hf.
      destruct (Ascii.eqb_spec c dquote) as [->|]; [discriminate | reflexivity]. }
    destruct (test_special _).
    + unfold wrap_quotes. cbn [double_quotes]. rewrite Hc, Hq.
      cbn [String.length]. rewrite length_append. cbn [String.length].
      pose proof (double_quotes_length rest). lia.
    + cbn [String.length]. lia.
  - destruct (test_special _).
    + unfold wrap_quotes. cbn [String.length]. rewrite length_append.
      cbn [String.length]. pose proof (double_quotes_length raw). lia.
    + lia.
Qed.

Lemma mapM_lines_Throw {T : Type} (row : T -> result (list cell)) (values : list T)
    (e : JsError) :
  mapM row values = Throw e ->
  mapM (fun item =>
          cells <- row item ;;
          fields <- mapM escapeCsvField cells ;;
          Ok (Some (join ";" fields))) values
  = Throw e.
Proof.
  induction values as [|v values IH]; simpl; [discriminate|].
  destruct (row v) as [cells|e0]; simpl; [|now intros [= ->]].
  rewrite mapM_escapeCsvField. simpl.
  destruct (mapM row values) as [rest|e1]; simpl; [discriminate|].
  intros [= ->]. now rewrite IH.
Qed.

(** The table builder in one equation: the rows are projected in order and
    the table is the encoding of the header and the rows. *)
Lemma createCsvBuffer_eq {T : Type} (headers : list cell) (values : list T)
    (row : T -> result (list cell)) :
  createCsvBuffer headers values row
  = (rows <- mapM row values ;;
     Ok (encodeTable (map (map orEmpty) (headers :: rows)))).
Proof.
  destruct (mapM row values) as [rows|e] eqn:E.
  - now apply createCsvBuffer_Ok.
  - unfold createCsvBuffer. rewrite mapM_escapeCsvField. cbn [bind].
    now rewrite (mapM_lines_Throw row values e E).
Qed.

Lemma mapM_first_error {A B : Type} (f : A -> result B) (xs : list A) (e : JsError) :
  mapM f xs = Throw e <->
  exists pre x post,
    xs = (pre ++ x :: post)%list
    /\ Forall (fun y => exists b, f y = Ok b) pre
    /\ f x = Throw e.
Proof.
  split.
  - induction xs as [|x xs IH]; [discriminate|]. cbn [mapM].
    destruct (f x) as [b|e0] eqn:E; cbn [bind].
    + destruct (mapM f xs) as [ys|e1]; cbn [bind]; [discriminate|].
      intros [= ->]. destruct (IH eq_refl) as [pre [y [post [-> [Hpre Hy]]]]].
      exists (x :: pre), y, post. repeat split; [|assumption].
      constructor; [eauto | assumption].
    + intros [= ->]. exists [], x, xs. repeat split; [constructor | assumption].
  - intros [pre [x [post [-> [Hpre Hx]]]]].
    induction Hpre as [|y pre [b Hy] _ IH]; cbn [app mapM].
    + now rewrite Hx.
    + rewrite Hy. cbn [bind]. now rewrite IH.
Qed.

(** X5. The table builder throws exactly when the projection of some
    record throws, and then with the error of the first such record; the
    header plays no part in it. *)
Theorem createCsvBuffer_first_error {T : Type} (headers : list cell)
    (values : list T) (row : T -> result (list cell)) (e : JsError) :
  createCsvBuffer headers values row = Throw e <->
  exists pre v post,
    values = (pre ++ v :: post)%list
    /\ Forall (fun x => exists cells, row x = Ok cells) pre
    /\ row v = Throw e.
Proof.
  rewrite createCsvBuffer_eq, <- mapM_first_error.
  destruct (mapM row values); cbn [bind]; split; congruence.
Qed.

Lemma mapM_definedCell {T : Type} (row : T -> result (list cell)) (values : list T) :
  mapM (fun v => cells <- row v ;; Ok (map definedCell cells)) values
  = (rows <- mapM row values ;; Ok (map (map definedCell) rows)).
Proof.
  induction values as [|v values IH]; [reflexivity|]. cbn [mapM].
  destruct (row v) as [cells|e]; cbn [bind]; [|reflexivity].
  rewrite IH. destruct (mapM row values); reflexivity.
Qed.

Lemma orEmpty_definedCell (cells : list cell) :
  map orEmpty (map definedCell cells) = map orEmpty cells.
Proof. rewrite map_map. reflexivity. Qed.

(** X6. An [undefined] cell and an empty string are written alike: the
    table does not change when every [undefined] cell of the header and of
    the projected rows is replaced by the empty string. *)
Theorem createCsvBuffer_undefined_as_empty {T : Type} (headers : list cell)
    (values : list T) (row : T -> result (list cell)) :
  createCsvBuffer headers values row
  = createCsvBuffer (map definedCell headers) values
      (fun v => cells <- row v ;; Ok (map definedCell cells)).
Proof.
  rewrite !createCsvBuffer_eq, mapM_definedCell.
  destruct (mapM row values) as [rows|e]; cbn [bind]; [|reflexivity].
  do 2 f_equal. cbn [map]. rewrite orEmpty_definedCell. f_equal.
  rewrite map_map. apply map_ext. intros r. symmetry. apply orEmpty_definedCell.
Qed.

Lemma mapM_app {A B : Type} (f : A -> result B) (xs ys : list A) :
  mapM f (xs ++ ys)
  = (a <- mapM f xs ;; b <- mapM f ys ;; Ok (a ++ b)%list).
Proof.
  induction xs as [|x xs IH]; cbn [app mapM].
  - cbn [bind]. destruct (mapM f ys); reflexivity.
  - destruct (f x); cbn [bind]; [|reflexivity]. rewrite IH.
    destruct (mapM f xs); cbn [bind]; [|reflexivity].
    destruct (mapM f ys); reflexivity.
Qed.

Lemma concat_snoc (sep : string) (ls : list string) (x : string) :
  ls <> [] ->
  String.concat sep (ls ++ [x]) = String.concat sep ls ++ sep ++ x.
Proof.
  induction ls as [|a ls IH]; intros H; [congruence|].
  destruct ls as [|b ls]; [reflexivity|].
  change (String.concat sep ((a :: b :: ls) ++ [x]))
    with (a ++ sep ++ String.concat sep ((b :: ls) ++ [x])).
  rewrite IH by discriminate.
  change (String.concat sep (a :: b :: ls))
    with (a ++ sep ++ String.concat sep (b :: ls)).
  now rewrite !append_assoc.
Qed.

Lemma encodeTable_snoc (rows : list (list string)) (r : list string) :
  rows <> [] ->
  encodeTable (rows ++ [r])
  = encodeTable rows ++ String newline (String.concat ";" (map encodeText r)).
Proof.
  intros H. unfold encodeTable. rewrite map_app. cbn [map].
  rewrite concat_snoc; [reflexivity|].
  destruct rows; [congruence | discriminate].
Qed.

(** X7. A table grows by lines: when the table of some records is built
    and one more record projects, the table of the records followed by
    that record is the former table, a line feed, and the line of the new
    record. *)
Theorem createCsvBuffer_append_record {T : Type} (headers : list cell)
    (values : list T) (row : T -> result (list cell)) (v : T)
    (table : string) (cells : list cell) :
  createCsvBuffer headers values row = Ok table ->
  row v = Ok cells ->
  createCsvBuffer headers (values ++ [v]) row
  = Ok (table
        ++ String newline (String.concat ";" (map encodeText (map orEmpty cells)))).
Proof.
  rewrite !createCsvBuffer_eq, mapM_app. intros Ht Hv.
  destruct (mapM row values) as [rows|e]; cbn [bind] in *; [|discriminate].
  injection Ht as <-. cbn [mapM]. rewrite Hv. cbn [bind]. f_equal.
  replace (map (map orEmpty) (headers :: (rows ++ [cells])%list))
    with (map (map orEmpty) (headers :: rows) ++ [map orEmpty cells])%list
    by (cbn [map]; now rewrite map_app).
  apply encodeTable_snoc. discriminate.
Qed.

Lemma createCsvBuffer_append_record_witness :
  createCsvBuffer (text_cells ["id"; "note"]) (["a"] ++ ["b;c"])
    (textRow (fun v => ["1"; v]))
  = Ok (("id;note" ++ String newline "1;a")
        ++ String newline
             (String.concat ";" (map encodeText (map orEmpty (text_cells ["1"; "b;c"]))))).
Proof.
  exact (createCsvBuffer_append_record (text_cells ["id"; "note"]) ["a"]
           (textRow (fun v => ["1"; v])) "b;c"
           ("id;note" ++ String newline "1;a") (text_cells ["1"; "b;c"])
           eq_refl eq_refl).
Defined.

(** * Further properties of the projectors *)

Lemma mapM_Forall {A B : Type} (f : A -> result B) (P : B -> Prop)
    (xs : list A) (ys : list B) :
  (forall x y, f x = Ok y -> P y) -> mapM f xs = Ok ys -> Forall P ys.
Proof.
  intros H. revert ys. induction xs as [|x xs IH]; intros ys; cbn [mapM].
  - intros [= <-]. constructor.
  - destruct (f x) as [y|e] eqn:E; cbn [bind]; [|discriminate].
    destruct (mapM f xs) as [ys'|e]; cbn [bind]; [|discriminate].
    intros [= <-]. constructor; [now apply (H x) | now apply IH].
Qed.


(** A table built with a non-empty header and a projector of fixed width
    reads back as the header and one row per record, cell by cell. *)
Lemma built_table_reads {T : Type} (headers : list cell) (values : list T)
    (row : T -> result (list cell)) (table : string) :
  headers <> [] ->
  (forall v cells, row v = Ok cells -> List.length cells = List.length headers) ->
  createCsvBuffer headers values row = Ok table ->
  exists rows,
    mapM row values = Ok rows
    /\ List.length rows = List.length values
    /\ Forall (fun r => List.length r = List.length headers) rows
    /\ decodeCsv table
       = map (map guarded) (map (map orEmpty) (headers :: rows)).
Proof.
  intros Hh Hw. rewrite createCsvBuffer_eq.
  destruct (mapM row values) as [rows|e] eqn:E; cbn [bind]; [|discriminate].
  intros [= <-]. exists rows. split; [reflexivity|].
  assert (Hall : Forall (fun r => List.length r = List.length headers) rows)
    by exact (mapM_Forall row _ values rows Hw E).
  split; [exact (mapM_length row values rows E)|]. split; [exact Hall|].
  apply decode_encodeTable; [discriminate|].
  apply Forall_map. constructor.
  - destruct headers; [congruence | discriminate].
  - eapply Forall_impl; [|exact Hall]. intros r Hr Er.
    destruct r; [|discriminate]. destruct headers; [congruence | discriminate].
Qed.

Ltac row_width :=
  intros;
  repeat match goal with
         | H : context [match ?x with _ => _ end] |- _ =>
             lazymatch x with
             | context [match _ with _ => _ end] => fail
             | _ => destruct x; cbn in H
             end
         end;
  try discriminate;
  match goal with
  | H : Ok _ = Ok _ |- _ => injection H as <-; reflexivity
  end.

Lemma questionnaireRow_width v cells :
  questionnaireRow v = Ok cells -> List.length cells = List.length questionnaireHeaders.
Proof. unfold questionnaireRow. intros [= <-]. reflexivity. Qed.

Lemma appointmentRow_width v cells :
  appointmentRow v = Ok cells -> List.length cells = List.length appointmentHeaders.
Proof.
  unfold appointmentRow, required_toISOString, toISOString, bind. row_width.
Qed.

Lemma messageRow_width v cells :
  messageRow v = Ok cells -> List.length cells = List.length messageHeaders.
Proof.
  unfold messageRow, optional_toISOString, toISOString, bind. row_width.
Qed.

Lemma medicationRequestRow_width v cells :
  medicationRequestRow v = Ok cells ->
  List.length cells = List.length medicationRequestHeaders.
Proof. unfold medicationRequestRow. intros [= <-]. reflexivity. Qed.

Lemma bloodPressureRow_width K v cells :
  bloodPressureRow K v = Ok cells ->
  List.length cells = List.length bloodPressureHeaders.
Proof.
  unfold bloodPressureRow, optional_toISOString, toISOString, bind. row_width.
Qed.

Lemma observationRow_width v cells :
  observationRow v = Ok cells -> List.length cells = List.length observationHeaders.
Proof.
  unfold observationRow, optional_toISOString, toISOString, bind. row_width.
Qed.

Lemma kccqRow_width K v cells :
  kccqRow K v = Ok cells -> List.length cells = List.length kccqHeaders.
Proof.
  unfold kccqRow, optional_toISOString, toISOString, bind. row_width.
Qed.

Lemma symptomScoreRow_width v cells :
  symptomScoreRow v = Ok cells -> List.length cells = List.length symptomScoreHeaders.
Proof.
  unfold symptomScoreRow, required_toString, required_toISOString, toISOString, bind.
  row_width.
Qed.

(** X8. Each projector, whenever it returns, returns as many cells as its
    header list has columns, whatever optional parts the record lacks: four
    for questionnaire items, five for appointments, eight for messages, six
    for medication requests and blood pressure, four for the other
    observations, fifteen for questionnaire responses and nine for symptom
    scores. *)
Theorem projectors_fixed_width :
  (forall v cells, questionnaireRow v = Ok cells ->
                   List.length cells = List.length questionnaireHeaders
                   /\ List.length cells = 4)
  /\ (forall v cells, appointmentRow v = Ok cells ->
                      List.length cells = List.length appointmentHeaders
                      /\ List.length cells = 5)
  /\ (forall v cells, messageRow v = Ok cells ->
                      List.length cells = List.length messageHeaders
                      /\ List.length cells = 8)
  /\ (forall v cells, medicationRequestRow v = Ok cells ->
                      List.length cells = List.length medicationRequestHeaders
                      /\ List.length cells = 6)
  /\ (forall K v cells, bloodPressureRow K v = Ok cells ->
                        List.length cells = List.length bloodPressureHeaders
                        /\ List.length cells = 6)
  /\ (forall v cells, observationRow v = Ok cells ->
                      List.length cells = List.length observationHeaders
                      /\ List.length cells = 4)
  /\ (forall K v cells, kccqRow K v = Ok cells ->
                        List.length cells = List.length kccqHeaders
                        /\ List.length cells = 15)
  /\ (forall v cells, symptomScoreRow v = Ok cells ->
                      List.length cells = List.length symptomScoreHeaders
                      /\ List.length cells = 9).
Proof.
  split; [|split; [|split; [|split; [|split; [|split; [|split]]]]]].
  - intros v cells H. now rewrite (questionnaireRow_width v cells H).
  - intros v cells H. now rewrite (appointmentRow_width v cells H).
  - intros v cells H. now rewrite (messageRow_width v cells H).
  - intros v cells H. now rewrite (medicationRequestRow_width v cells H).
  - intros K v cells H. now rewrite (bloodPressureRow_width K v cells H).
  - intros v cells H. now rewrite (observationRow_width v cells H).
  - intros K v cells H. now rewrite (kccqRow_width K v cells H).
  - intros v cells H. now rewrite (symptomScoreRow_width v cells H).
Qed.

Lemma staged_table_reads {A T : Type} (q : query A) (headers : list cell)
    (pick : A -> list T) (row : T -> result (list cell)) (table : string) :
  headers <> [] ->
  (forall v cells, row v = Ok cells -> List.length cells = List.length headers) ->
  (rs <- await q ;; createCsvBuffer headers (pick rs) row) = Ok table ->
  exists rs rows,
    q = inr rs
    /\ mapM row (pick rs) = Ok rows
    /\ List.length rows = List.length (pick rs)
    /\ Forall (fun r => List.length r = List.length headers) rows
    /\ decodeCsv table
       = map (map guarded) (map (map orEmpty) (headers :: rows)).
Proof.
  intros Hh Hw. destruct q as [why|rs]; cbn [await bind]; [discriminate|].
  intros H. destruct (built_table_reads headers (pick rs) row table Hh Hw H)
    as [rows [H1 [H2 [H3 H4]]]].
  exists rs, rows. auto.
Qed.

Lemma rectangular_read (headers : list cell) (rows : list (list cell)) (n : nat) :
  n <= List.length headers ->
  Forall (fun r => List.length r = List.length headers) rows ->
  exists header body,
    map (map guarded) (map (map orEmpty) (headers :: rows)) = header :: body
    /\ n <= List.length header
    /\ List.length body = List.length rows
    /\ Forall (fun r => List.length r = List.length header) body.
Proof.
  intros Hn Hall. eexists _, _. cbn [map]. split; [reflexivity|].
  rewrite !length_map. split; [assumption|]. split; [reflexivity|].
  apply Forall_map. apply Forall_map.
  eapply Forall_impl; [|exact Hall]. intros r Hr. now rewrite !length_map.
Qed.

(** X9. Every table put into the archive is rectangular: the table of a
    questionnaire and every table of a user that was built read back as a
    header row of at least four names followed by rows of exactly as many
    cells; the questionnaire table has one row per exported item. *)
Theorem archive_tables_rectangular :
  (forall K db u nm table,
      In (nm, Ok table) (userTables K db u) ->
      exists header body,
        decodeCsv table = header :: body
        /\ 4 <= List.length header
        /\ Forall (fun r => List.length r = List.length header) body)
  /\ (forall q,
         exists body,
           decodeCsv (data (questionnaireEntry q))
           = ["linkId"; "text"; "type"; "options"] :: body
           /\ List.length body = List.length (questionnaireItems (content q))
           /\ Forall (fun r => List.length r = 4) body).
Proof.
  split.
  - intros K db u nm table Hin.
    assert (Hread : forall (A T : Type) (q : query A) headers (pick : A -> list T) row,
               4 <= List.length headers ->
               (forall v cells, row v = Ok cells ->
                                List.length cells = List.length headers) ->
               (rs <- await q ;; createCsvBuffer headers (pick rs) row) = Ok table ->
               exists header body,
                 decodeCsv table = header :: body
                 /\ 4 <= List.length header
                 /\ Forall (fun r => List.length r = List.length header) body).
    { intros A T q headers pick row Hn Hw H.
      assert (Hh : headers <> []) by (destruct headers; [cbn in Hn; lia | discriminate]).
      destruct (staged_table_reads q headers pick row table Hh Hw H)
        as [rs [rows [_ [_ [_ [Hall ->]]]]]].
      destruct (rectangular_read headers rows 4 Hn Hall)
        as [header [body [-> [H1 [_ H2]]]]].
      exists header, body. auto. }
    unfold userTables in Hin. apply in_app_or in Hin. destruct Hin as [Hin|Hin].
    + destruct Hin as [[= _ H]|[[= _ H]|[[= _ H]|[]]]].
      * refine (Hread _ _ _ _ (fun rs => rs) _ _ appointmentRow_width H).
        cbn; lia.
      * refine (Hread _ _ _ _ (fun rs => rs) _ _ medicationRequestRow_width H).
        cbn; lia.
      * refine (Hread _ _ _ _ (fun rs => rs) _ _ messageRow_width H).
        cbn; lia.
    + apply in_app_or in Hin. destruct Hin as [Hin|Hin].
      * apply in_map_iff in Hin. destruct Hin as [c [[= _ H] _]].
        unfold observationTable in H.
        destruct (String.eqb c (UserObservationCollection_bloodPressure K)).
        -- refine (Hread _ _ _ _ (fun rs => rs) _ _ (bloodPressureRow_width K) H).
           cbn; lia.
        -- refine (Hread _ _ _ _ (fun rs => rs) _ _ observationRow_width H).
           cbn; lia.
      * destruct Hin as [[= _ H]|[[= _ H]|[]]].
        -- refine (Hread _ _ _ _ (filter (isKccq K)) _ _ (kccqRow_width K) H).
           cbn; lia.
        -- refine (Hread _ _ _ _ (fun rs => rs) _ _ symptomScoreRow_width H).
           cbn; lia.
  - intros q.
    pose proof (questionnaire_table q) as Ht.
    assert (Hh : questionnaireHeaders <> []) by discriminate.
    destruct (built_table_reads questionnaireHeaders
                (questionnaireItems (content q)) questionnaireRow
                (data (questionnaireEntry q)) Hh questionnaireRow_width Ht)
      as [rows [_ [Hlen [Hall ->]]]].
    eexists. cbn [map]. split; [reflexivity|].
    rewrite !length_map. split; [assumption|].
    apply Forall_map. apply Forall_map.
    eapply Forall_impl; [|exact Hall]. intros r Hr. now rewrite !length_map.
Qed.

Lemma find_first {A : Type} (p : A -> bool) (xs : list A) (x : A) :
  find p xs = Some x ->
  p x = true
  /\ exists pre post,
       xs = (pre ++ x :: post)%list /\ Forall (fun y => p y = false) pre.
Proof.
  induction xs as [|y xs IH]; [discriminate|]. cbn [find].
  destruct (p y) eqn:E.
  - intros [= <-]. split; [assumption|]. exists [], xs. split; [reflexivity|constructor].
  - intros H. destruct (IH H) as [Hx [pre [post [-> Hpre]]]].
    split; [assumption|]. exists (y :: pre), post.
    split; [reflexivity | now constructor].
Qed.

Lemma find_none_iff {A : Type} (p : A -> bool) (xs : list A) :
  find p xs = None <-> Forall (fun y => p y = false) xs.
Proof.
  induction xs as [|y xs IH]; cbn [find].
  - split; [constructor | reflexivity].
  - destruct (p y) eqn:E.
    + split; [discriminate|]. intros H. inversion H; congruence.
    + rewrite IH. split; [now constructor | intros H; now inversion H].
Qed.

(** X10. In the blood-pressure projector a component counts for a code
    when its coding list holds that code; the first such component of the
    observation supplies value and unit, and when there is none (or no
    component list, or no quantity) the two cells are empty. The projector
    throws only for an invalid [effectiveDateTime], a [RangeError]. *)
Theorem bloodPressureRow_components :
  (forall loinc o c,
      findComponent loinc o = Some c ->
      hasCode loinc c = true
      /\ exists pre post,
           component o = Some (pre ++ c :: post)%list
           /\ Forall (fun x => hasCode loinc x = false) pre)
  /\ (forall loinc o,
         findComponent loinc o = None <->
         component o = None
         \/ exists cs, component o = Some cs
                       /\ Forall (fun x => hasCode loinc x = false) cs)
  /\ (forall loinc c,
         hasCode loinc c = true <->
         exists cs k, coding (component_code c) = Some cs
                      /\ In k cs /\ code k = Some loinc)
  /\ (forall K v e,
         bloodPressureRow K v = Throw e <->
         e = RangeError /\ effectiveDateTime (content v) = Some InvalidDate)
  /\ (forall K v cells,
         bloodPressureRow K v = Ok cells ->
         let systolic :=
           findComponent (LoincCode_systolicBloodPressure K) (content v) in
         let diastolic :=
           findComponent (LoincCode_diastolicBloodPressure K) (content v) in
         nth_error cells 0 = Some (Some (id v))
         /\ nth_error cells 1
            = Some (Some (optional_toString
                            (systolic ?. component_valueQuantity ?. quantity_value)))
         /\ nth_error cells 2
            = Some (Some (orEmpty (systolic ?. component_valueQuantity ?. quantity_unit)))
         /\ nth_error cells 3
            = Some (Some (optional_toString
                            (diastolic ?. component_valueQuantity ?. quantity_value)))
         /\ nth_error cells 4
            = Some (Some (orEmpty (diastolic ?. component_valueQuantity ?. quantity_unit)))
         /\ (systolic = None ->
             nth_error cells 1 = Some (Some EmptyString)
             /\ nth_error cells 2 = Some (Some EmptyString))
         /\ (diastolic = None ->
             nth_error cells 3 = Some (Some EmptyString)
             /\ nth_error cells 4 = Some (Some EmptyString))).
Proof.
  split; [|split; [|split; [|split]]].
  - intros loinc o c. unfold findComponent. destruct (component o) as [cs|];
      cbn [chain]; [|discriminate].
    intros H. destruct (find_first _ _ _ H) as [Hc [pre [post [-> Hpre]]]].
    split; [assumption|]. exists pre, post. auto.
  - intros loinc o. unfold findComponent. destruct (component o) as [cs|];
      cbn [chain].
    + rewrite find_none_iff. split.
      * intros H. right. exists cs. auto.
      * intros [H|[cs' [[= <-] H]]]; [discriminate | assumption].
    + split; [now left | reflexivity].
  - intros loinc c. unfold hasCode. destruct (coding (component_code c)) as [cs|].
    + rewrite existsb_exists. split.
      * intros [k [Hk Hc]]. exists cs, k. split; [reflexivity|]. split; [assumption|].
        destruct (code k) as [t|]; [|discriminate].
        apply String.eqb_eq in Hc. now subst.
      * intros [cs' [k [[= <-] [Hk Hc]]]]. exists k. split; [assumption|].
        rewrite Hc. apply String.eqb_refl.
    + split; [discriminate | intros [cs [k [H _]]]; discriminate].
  - intros K v e. unfold bloodPressureRow, optional_toISOString, toISOString.
    destruct (effectiveDateTime (content v)) as [[iso|]|]; cbn [bind]; split;
      try discriminate.
    + intros [_ H]. discriminate.
    + intros [= <-]. auto.
    + reflexivity || (intros [-> _]; reflexivity).
    + intros [_ H]. discriminate.
  - intros K v cells. unfold bloodPressureRow.
    destruct (optional_toISOString (effectiveDateTime (content v))) as [d|e];
      cbn [bind]; [|discriminate].
    intros [= <-]. cbn zeta. cbn [nth_error].
    repeat split; try reflexivity; intros;
      match goal with H : _ = None |- _ => now rewrite H end.
Qed.

(** X11. The message projector throws only a [RangeError], and exactly
    when the creation date, or a completion or due date that is present,
    is an invalid date; when it returns, an absent action, reference,
    completion date or due date is an empty cell. *)
Theorem messageRow_optional_fields :
  (forall v e,
      messageRow v = Throw e <->
      e = RangeError
      /\ (creationDate (content v) = InvalidDate
          \/ completionDate (content v) = Some InvalidDate
          \/ dueDate (content v) = Some InvalidDate))
  /\ (forall v cells,
         messageRow v = Ok cells ->
         nth_error cells 0 = Some (Some (id v))
         /\ nth_error cells 2 = Some (Some (title_localized (content v)))
         /\ nth_error cells 3 = Some (Some (orEmpty (action (content v))))
         /\ nth_error cells 4 = Some (Some (orEmpty (message_reference (content v))))
         /\ (completionDate (content v) = None ->
             nth_error cells 6 = Some (Some EmptyString))
         /\ (dueDate (content v) = None ->
             nth_error cells 7 = Some (Some EmptyString))).
Proof.
  split.
  - intros v e. unfold messageRow, optional_toISOString, toISOString.
    destruct (creationDate (content v)) as [c|];
      destruct (completionDate (content v)) as [[f|]|];
      destruct (dueDate (content v)) as [[d|]|]; cbn [bind]; split;
      try discriminate;
      try (intros [= <-]; split; [reflexivity | auto]);
      try (intros [-> _]; reflexivity);
      intros [_ [H|[H|H]]]; discriminate.
  - intros v cells. unfold messageRow, optional_toISOString, toISOString.
    destruct (creationDate (content v)) as [c|]; cbn [bind]; [|discriminate].
    destruct (completionDate (content v)) as [[f|]|]; cbn [bind];
      try discriminate;
      destruct (dueDate (content v)) as [[d|]|]; cbn [bind];
      try discriminate;
      intros [= <-]; cbn [nth_error]; repeat split; discriminate.
Qed.

Lemma observationRow_date v e :
  observationRow v = Throw e <->
  e = RangeError /\ effectiveDateTime (content v) = Some InvalidDate.
Proof.
  unfold observationRow, optional_toISOString, toISOString.
  destruct (effectiveDateTime (content v)) as [[iso|]|]; cbn [bind]; split;
    try discriminate.
  - intros [_ H]. discriminate.
  - intros [= <-]. auto.
  - intros [-> _]. reflexivity.
  - intros [_ H]. discriminate.
Qed.

(** X12. The table of an observation collection has the six blood-pressure
    columns exactly when the collection is the blood-pressure one, and the
    four plain columns otherwise, with one row per observation. The plain
    projector throws only for an invalid [effectiveDateTime], and leaves
    value and unit empty when the observation has no quantity. *)
Theorem observationTable_schema :
  (forall K c rs table,
      observationTable K c rs = Ok table ->
      exists body,
        decodeCsv table
        = (if String.eqb c (UserObservationCollection_bloodPressure K)
           then ["id"; "systolicValue"; "systolicUnit"; "diastolicValue";
                 "diastolicUnit"; "effectiveDateTime"]
           else ["id"; "value"; "unit"; "effectiveDateTime"]) :: body
        /\ List.length body = List.length rs)
  /\ (forall v e,
         observationRow v = Throw e <->
         e = RangeError /\ effectiveDateTime (content v) = Some InvalidDate)
  /\ (forall v cells,
         observationRow v = Ok cells ->
         valueQuantity (content v) = None ->
         nth_error cells 1 = Some (Some EmptyString)
         /\ nth_error cells 2 = Some (Some EmptyString)).
Proof.
  split; [|split; [exact observationRow_date|]].
  - intros K c rs table. unfold observationTable.
    destruct (String.eqb c (UserObservationCollection_bloodPressure K)); intros H.
    + assert (Hh : bloodPressureHeaders <> []) by discriminate.
      destruct (built_table_reads _ _ _ _ Hh (bloodPressureRow_width K) H)
        as [rows [_ [Hlen [_ ->]]]].
      eexists. cbn [map]. split; [reflexivity|]. now rewrite !length_map.
    + assert (Hh : observationHeaders <> []) by discriminate.
      destruct (built_table_reads _ _ _ _ Hh observationRow_width H)
        as [rows [_ [Hlen [_ ->]]]].
      eexists. cbn [map]. split; [reflexivity|]. now rewrite !length_map.
  - intros v cells. unfold observationRow.
    destruct (optional_toISOString (effectiveDateTime (content v))) as [d|e];
      cbn [bind]; [|discriminate].
    intros [= <-] ->. split; reflexivity.
Qed.



Lemma split_nonempty (sep : ascii) (s : string) : split sep s <> [].
Proof.
  destruct s as [|c s]; cbn [split]; [discriminate|].
  destruct (Ascii.eqb c sep); [discriminate|].
  destruct (split sep s); discriminate.
Qed.

Lemma concat_split (sep : ascii) (s : string) :
  String.concat (String sep EmptyString) (split sep s) = s.
Proof.
  induction s as [|c s IH]; [reflexivity|]. cbn [split].
  destruct (Ascii.eqb_spec c sep) as [->|Hc].
  - destruct (split sep s) as [|seg segs] eqn:E; [now destruct (split_nonempty sep s)|].
    change (String.concat (String sep EmptyString) (EmptyString :: seg :: segs))
      with (String sep (String.concat (String sep EmptyString) (seg :: segs))).
    now rewrite IH.
  - destruct (split sep s) as [|seg segs] eqn:E; [now destruct (split_nonempty sep s)|].
    destruct segs as [|seg' segs]; cbn in IH |- *; now rewrite <- IH.
Qed.

Lemma split_length (sep : ascii) (s : string) :
  List.length (split sep s)
  = 1 + List.length (filter (Ascii.eqb sep) (list_ascii_of_string s)).
Proof.
  induction s as [|c s IH]; [reflexivity|]. cbn [split list_ascii_of_string filter].
  rewrite (Ascii.eqb_sym sep c). destruct (Ascii.eqb c sep).
  - cbn [List.length]. now rewrite IH.
  - destruct (split sep s) as [|seg segs] eqn:E; [now destruct (split_nonempty sep s)|].
    cbn [List.length] in *. exact IH.
Qed.

Lemma split_segment (sep : ascii) (g k : string) :
  string_existsb (Ascii.eqb sep) g = false ->
  split sep (g ++ String sep k) = g :: split sep k.
Proof.
  induction g as [|c g IH]; intros H.
  - cbn. now rewrite Ascii.eqb_refl.
  - cbn [string_existsb] in H. apply orb_false_iff in H. destruct H as [Hc Hg].
    change (String c g ++ String sep k) with (String c (g ++ String sep k)).
    cbn [split]. rewrite Ascii.eqb_sym, Hc. now rewrite IH.
Qed.

Lemma split_last_segment (sep : ascii) (g : string) :
  string_existsb (Ascii.eqb sep) g = false -> split sep g = [g].
Proof.
  induction g as [|c g IH]; intros H; [reflexivity|].
  cbn [string_existsb] in H. apply orb_false_iff in H. destruct H as [Hc Hg].
  cbn [split]. rewrite Ascii.eqb_sym, Hc. now rewrite IH.
Qed.

Lemma split_concat (sep : ascii) (segs : list string) :
  segs <> [] ->
  Forall (fun g => string_existsb (Ascii.eqb sep) g = false) segs ->
  split sep (String.concat (String sep EmptyString) segs) = segs.
Proof.
  induction segs as [|g segs IH]; intros Hne Hall; [congruence|].
  inversion Hall as [|? ? Hg Hrest]; subst.
  destruct segs as [|g' segs].
  - cbn [String.concat]. now apply split_last_segment.
  - change (String.concat (String sep EmptyString) (g :: g' :: segs))
      with (g ++ String sep (String.concat (String sep EmptyString) (g' :: segs))).
    rewrite split_segment by assumption. f_equal. apply IH; [discriminate | assumption].
Qed.

(** X14. The pieces of the medication reference, joined again by slashes,
    are the reference, and there is one more piece than there are slashes;
    for a reference made of slash-free segments the pieces are these
    segments, so the two code cells are the second and the fourth segment.
    Of the dosage instructions only the first is read. *)
Theorem medicationRequest_reference_pieces :
  (forall v,
      String.concat "/" (referenceParts v)
      = orEmpty (medicationReference (content v) ?. reference)
      /\ List.length (referenceParts v)
         = 1 + List.length
                 (filter (Ascii.eqb "/")
                    (list_ascii_of_string
                       (orEmpty (medicationReference (content v) ?. reference)))))
  /\ (forall v segs,
         segs <> [] ->
         Forall (fun g => string_existsb (Ascii.eqb "/") g = false) segs ->
         medicationReference (content v) ?. reference
         = Some (String.concat "/" segs) ->
         referenceParts v = segs
         /\ exists q u f,
              medicationRequestRow v
              = Ok [Some (id v); nth_error segs 1; nth_error segs 3;
                    Some q; Some u; Some f])
  /\ (forall i ref d ds,
         medicationRequestRow
           {| id := i;
              content := {| medicationReference := ref;
                            dosageInstruction := Some (d :: ds) |} |}
         = medicationRequestRow
             {| id := i;
                content := {| medicationReference := ref;
                              dosageInstruction := Some [d] |} |}).
Proof.
  split; [|split].
  - intros v. unfold referenceParts. split; [apply concat_split | apply split_length].
  - intros v segs Hne Hall Href.
    assert (Hparts : referenceParts v = segs).
    { unfold referenceParts. rewrite Href. cbn [orEmpty].
      now apply (split_concat "/"). }
    split; [exact Hparts|].
    destruct (medicationRequestRow_cells v) as [q [u [f H]]].
    exists q, u, f. rewrite H, Hparts. reflexivity.
  - reflexivity.
Qed.

(** * Further properties of the archive and the exports *)

Lemma filter_all {A : Type} (p : A -> bool) (xs : list A) :
  Forall (fun x => p x = true) xs -> filter p xs = xs.
Proof.
  induction 1 as [|x xs Hx _ IH]; [reflexivity|].
  cbn [filter]. now rewrite Hx, IH.
Qed.

Lemma generatePatients_names K db ids qs :
  questionnaires db = inr qs ->
  (forall u, In u ids -> firstError (userTables K db u) = Ok tt) ->
  exists ar,
    generatePatients K db ids [] = (ar, Ok tt)
    /\ names ar
       = app (map (fun q => "questionnaire_" ++ id q ++ ".csv") qs)
           (flat_map (userEntryNames K) ids).
Proof.
  intros Hq Hu. eexists. split; [exact (generatePatients_ok K db ids qs Hq Hu)|].
  rewrite names_app, (names_users K db ids Hu). f_equal.
  unfold names. rewrite map_map. reflexivity.
Qed.

(** X15. The export for all takes every patient the store returns, in the
    store's order; it is the export for an organization when every patient
    belongs to that organization; and when the store rejects the patient
    query both exports are rejected with the store's error before anything
    is generated. *)
Theorem exportPatientDataForAll_everyone K db lib :
  (forall why,
      getAllPatients db = inl why ->
      exportPatientDataForAll K db lib = Rejected (StoreError why)
      /\ forall org,
           exportPatientDataForOrganization K db lib org = Rejected (StoreError why))
  /\ (forall patients org,
         getAllPatients db = inr patients ->
         Forall (fun p => organization (content p) = Some org) patients ->
         exportPatientDataForOrganization K db lib org
         = exportPatientDataForAll K db lib)
  /\ (forall patients qs,
         getAllPatients db = inr patients ->
         questionnaires db = inr qs ->
         (forall p, In p patients -> firstError (userTables K db (id p)) = Ok tt) ->
         exists ar,
           exportPatientDataForAll K db lib
           = settle [] (whileAppending lib ar ++ afterFinalize lib ar)%list
           /\ names ar
              = app (map (fun q => "questionnaire_" ++ id q ++ ".csv") qs)
                  (flat_map (fun p => userEntryNames K (id p)) patients)).
Proof.
  split; [|split].
  - intros why Hp. unfold exportPatientDataForAll, exportPatientDataForOrganization.
    rewrite Hp. split; reflexivity.
  - intros patients org Hp Hall.
    unfold exportPatientDataForAll, exportPatientDataForOrganization.
    rewrite Hp. cbn [await]. rewrite filter_all; [reflexivity|].
    eapply Forall_impl; [|exact Hall]. intros p Ho. now apply inOrganization_iff.
  - intros patients qs Hp Hq Hu.
    destruct (generatePatients_names K db (map id patients) qs Hq) as [ar [Hg Hn]].
    { intros u Hin. apply in_map_iff in Hin. destruct Hin as [p [<- Hin]].
      now apply Hu. }
    exists ar. split.
    + unfold exportPatientDataForAll. rewrite Hp. cbn [await].
      unfold createPatientsZipBuffer. now rewrite createZipBuffer_run, Hg.
    + rewrite Hn. f_equal. now rewrite flat_map_concat_map, map_map,
        <- flat_map_concat_map.
Qed.

Lemma okEntries_length tables :
  firstError tables = Ok tt -> List.length (okEntries tables) = List.length tables.
Proof.
  intros H. rewrite <- (length_map fst tables), <- (okEntries_names tables H).
  unfold names. now rewrite length_map.
Qed.

Lemma userTables_length K db u :
  List.length (userTables K db u)
  = 5 + List.length (UserObservationCollection_values K).
Proof.
  unfold userTables. rewrite !length_app, length_map. cbn [List.length]. lia.
Qed.

Lemma flat_map_length_const {A B : Type} (f : A -> list B) (n : nat) (xs : list A) :
  (forall x, In x xs -> List.length (f x) = n) ->
  List.length (flat_map f xs) = List.length xs * n.
Proof.
  induction xs as [|x xs IH]; intros H; [reflexivity|].
  cbn [flat_map List.length]. rewrite length_app, (H x (or_introl eq_refl)).
  rewrite IH by (intros y Hy; apply H; now right). lia.
Qed.

(** X16. When the questionnaires are delivered and every table of every
    user is built, the generator returns with the questionnaire entries
    first and then, user by user in the given order, the five fixed tables
    and one table per observation collection of each user: in all, one
    entry per questionnaire and five plus the number of collections per
    user. *)
Theorem generatePatients_layout K db ids qs :
  questionnaires db = inr qs ->
  (forall u, In u ids -> firstError (userTables K db u) = Ok tt) ->
  exists ar,
    generatePatients K db ids [] = (ar, Ok tt)
    /\ firstn (List.length qs) ar = map questionnaireEntry qs
    /\ names (skipn (List.length qs) ar) = flat_map (userEntryNames K) ids
    /\ List.length ar
       = List.length qs
         + List.length ids * (5 + List.length (UserObservationCollection_values K)).
Proof.
  intros Hq Hu. eexists. split; [exact (generatePatients_ok K db ids qs Hq Hu)|].
  assert (Hl : List.length (map questionnaireEntry qs) = List.length qs)
    by apply length_map.
  split; [|split].
  - rewrite <- Hl. rewrite firstn_app, Nat.sub_diag, firstn_all. cbn [firstn].
    now rewrite app_nil_r.
  - rewrite <- Hl. rewrite skipn_app, Nat.sub_diag, skipn_all. cbn [skipn app].
    now apply names_users.
  - rewrite length_app, Hl. f_equal. apply flat_map_length_const.
    intros u Hin. rewrite (okEntries_length _ (Hu u Hin)). apply userTables_length.
Qed.

Lemma generatePatients_layout_witness :
  exists ar,
    generatePatients sampleData sampleStore ["p0"] [] = (ar, Ok tt)
    /\ List.length ar = 8.
Proof.
  destruct (generatePatients_layout sampleData sampleStore ["p0"]
              [{| id := "0";
                  content := {| questionnaire_item := Some [leaf "q1"] |} |}]
              eq_refl) as [ar [H1 [_ [_ H2]]]].
  - intros u [<-|[]]. reflexivity.
  - exists ar. split; [exact H1 | exact H2].
Defined.



Lemma all_tables_built (P : string -> Prop) (tables : list (string * result string)) :
  Forall (fun t => exists table, snd t = Ok table /\ P table) tables ->
  firstError tables = Ok tt /\ Forall (fun en => P (data en)) (okEntries tables).
Proof.
  induction 1 as [|[nm r] tables [table [Ht HP]] _ [IH1 IH2]].
  - split; [reflexivity | constructor].
  - cbn [snd] in Ht. subst r. cbn [firstError okEntries flat_map snd fst app].
    split; [assumption|]. constructor; [exact HP | exact IH2].
Qed.

Lemma filter_none {A : Type} (p : A -> bool) (xs : list A) :
  Forall (fun x => p x = false) xs -> filter p xs = [].
Proof.
  induction 1 as [|x xs Hx _ IH]; [reflexivity|].
  cbn [filter]. now rewrite Hx.
Qed.

(** X18. A user without any record still gets every table: when the
    queries of a user deliver nothing, and the delivered questionnaire
    responses are all of other questionnaires than KCCQ, every branch
    succeeds and each of the user's entries is a table of its header row
    alone. *)
Theorem user_without_records K db u rs :
  userAppointments db u = inr [] ->
  userMedicationRequests db u = inr [] ->
  userMessages db u = inr [] ->
  (forall c, In c (UserObservationCollection_values K) ->
             userObservations db u c = inr []) ->
  userQuestionnaireResponses db u = inr rs ->
  Forall (fun r => questionnaire (content r) <> Some (kccq_url K)) rs ->
  userSymptomScores db u = inr [] ->
  firstError (userTables K db u) = Ok tt
  /\ names (okEntries (userTables K db u)) = userEntryNames K u
  /\ Forall (fun en => exists header, decodeCsv (data en) = [header]
                                      /\ 4 <= List.length header)
       (okEntries (userTables K db u)).
Proof.
  intros Ha Hm Hg Ho Hr Hk Hs.
  assert (Hfilter : filter (isKccq K) rs = []).
  { apply filter_none. eapply Forall_impl; [|exact Hk]. intros r Hne.
    unfold isKccq. cbv beta in Hne. revert Hne.
    destruct (questionnaire (content r)) as [url|]; [|reflexivity].
    intros Hne. apply String.eqb_neq. intros E. apply Hne. now rewrite E. }
  assert (Hall : Forall (fun t => exists table,
                             snd t = Ok table
                             /\ exists header, decodeCsv table = [header]
                                               /\ 4 <= List.length header)
                   (userTables K db u)).
  { unfold userTables. rewrite Ha, Hm, Hg, Hr, Hs. cbn [await bind].
    rewrite Hfilter.
    apply Forall_app. split; [|apply Forall_app; split].
    - repeat constructor; cbn [snd]; eexists; (split; [reflexivity|]);
        eexists; (split; [reflexivity | cbn; lia]).
    - apply Forall_map. apply Forall_forall. intros c Hc. cbn [snd].
      rewrite (Ho c Hc). cbn [await bind]. unfold observationTable.
      destruct (String.eqb c (UserObservationCollection_bloodPressure K));
        eexists; (split; [reflexivity|]);
        eexists; (split; [reflexivity | cbn; lia]).
    - repeat constructor; cbn [snd]; eexists; (split; [reflexivity|]);
        eexists; (split; [reflexivity | cbn; lia]). }
  destruct (all_tables_built _ _ Hall) as [H1 H2].
  split; [exact H1|]. split; [|exact H2].
  rewrite (okEntries_names _ H1). apply userTables_names.
Qed.

Lemma user_without_records_witness :
  firstError (userTables sampleData sampleStore "p0") = Ok tt
  /\ names (okEntries (userTables sampleData sampleStore "p0"))
     = userEntryNames sampleData "p0".
Proof.
  destruct (user_without_records sampleData sampleStore "p0" []
              eq_refl eq_refl eq_refl (fun c _ => eq_refl) eq_refl
              (Forall_nil _) eq_refl) as [H1 [H2 _]].
  split; [exact H1 | exact H2].
Defined.

Lemma settle_only_data kept cs :
  settle kept (map DataEvent cs) = Pending.
Proof.
  revert kept. induction cs as [|c cs IH]; intros kept; [reflexivity|].
  cbn [map settle]. apply IH.
Qed.

(** X19. The promise around the writer settles once: when the generator
    returned and the writer sent chunks and then its end, the buffer is
    these chunks in order, whatever the writer emits afterwards, an error
    included; while the writer has sent nothing but chunks the promise
    stays pending; and when the generator threw, [finalize()] is not
    called, so that what the writer would emit after it plays no part and,
    the writer having sent only chunks, the rejection carries the
    generator's error. *)
Theorem createZipBuffer_settles_once lib generate :
  (forall ar cs later,
      generate [] = (ar, Ok tt) ->
      (whileAppending lib ar ++ afterFinalize lib ar)%list
      = (map DataEvent cs ++ EndEvent :: later)%list ->
      createZipBuffer lib generate = Fulfilled (Buffer_concat cs))
  /\ (forall ar cs,
         generate [] = (ar, Ok tt) ->
         (whileAppending lib ar ++ afterFinalize lib ar)%list = map DataEvent cs ->
         createZipBuffer lib generate = Pending)
  /\ (forall ar e,
         generate [] = (ar, Throw e) ->
         createZipBuffer lib generate
         = createZipBuffer
             {| whileAppending := whileAppending lib;
                afterFinalize := fun _ => [] |} generate)
  /\ (forall ar e cs,
         generate [] = (ar, Throw e) ->
         whileAppending lib ar = map DataEvent cs ->
         createZipBuffer lib generate = Rejected e).
Proof.
  split; [|split; [|split]].
  - intros ar cs later Hg Hev. rewrite createZipBuffer_run, Hg, Hev.
    apply settle_data_then_end.
  - intros ar cs Hg Hev. rewrite createZipBuffer_run, Hg, Hev.
    apply settle_only_data.
  - intros ar e Hg. rewrite !createZipBuffer_run, Hg. reflexivity.
  - intros ar e cs Hg Hev. rewrite createZipBuffer_run, Hg, Hev.
    now rewrite settle_only_data.
Qed.

(** X20. The export for a user names the user's entries after the id of
    the record the store returned for the requested id; when the
    questionnaires are delivered, every table of that user is built and
    the writer sends its chunks and its end, the call delivers these
    chunks. *)
Theorem exportPatientDataForUser_entries K db lib userId patient qs :
  getUser db userId = inr (Some patient) ->
  questionnaires db = inr qs ->
  firstError (userTables K db (id patient)) = Ok tt ->
  exists ar,
    generatePatients K db [id patient] [] = (ar, Ok tt)
    /\ names ar
       = app (map (fun q => "questionnaire_" ++ id q ++ ".csv") qs)
           (userEntryNames K (id patient))
    /\ exportPatientDataForUser K db lib userId
       = settle [] (whileAppending lib ar ++ afterFinalize lib ar)%list
    /\ (forall cs later,
           (whileAppending lib ar ++ afterFinalize lib ar)%list
           = (map DataEvent cs ++ EndEvent :: later)%list ->
           exportPatientDataForUser K db lib userId = Fulfilled (Buffer_concat cs)).
Proof.
  intros Hu Hq Ht.
  destruct (generatePatients_names K db [id patient] qs Hq) as [ar [Hg Hn]].
  { intros u [<-|[]]. exact Ht. }
  exists ar. split; [exact Hg|]. split.
  - rewrite Hn. cbn [flat_map]. now rewrite app_nil_r.
  - assert (Hrun : exportPatientDataForUser K db lib userId
                   = settle [] (whileAppending lib ar ++ afterFinalize lib ar)%list).
    { unfold exportPatientDataForUser. rewrite Hu. cbn [await].
      unfold createPatientsZipBuffer. now rewrite createZipBuffer_run, Hg. }
    split; [exact Hrun|]. intros cs later Hev. rewrite Hrun, Hev.
    apply settle_data_then_end.
Qed.

Lemma exportPatientDataForUser_entries_witness :
  exists ar,
    generatePatients sampleData sampleStore ["p0"] [] = (ar, Ok tt)
    /\ exportPatientDataForUser sampleData sampleStore sampleArchiver "p0"
       = settle [] (whileAppending sampleArchiver ar
                    ++ afterFinalize sampleArchiver ar)%list.
Proof.
  destruct (exportPatientDataForUser_entries sampleData sampleStore sampleArchiver
              "p0"
              {| id := "p0"; content := {| organization := Some "stanford" |} |}
              [{| id := "0";
                  content := {| questionnaire_item := Some [leaf "q1"] |} |}]
              eq_refl eq_refl eq_refl) as [ar [H1 [_ [H2 _]]]].
  exists ar. split; [exact H1 | exact H2].
Defined.

(** * Properties of the identity blocking functions *)

(** X21. The sign-in handler never rejects: it answers with the claims of
    the user, as custom and as session claims, when the event carries user
    data and the lookup finds the user, and with empty claims in every
    other case, a missing user record, an unknown user and a rejected
    lookup included. *)
Theorem beforeUserSignedIn_never_rejects (sv : IdentityServices)
    (event : AuthBlockingEvent) :
  exists response,
    beforeUserSignedInHandler sv event = Ok response
    /\ (forall data u,
           event_data event = Some data ->
           lookupUser sv (uid data) = inr (Some u) ->
           response = {| customClaims := userClaims sv (content u);
                         sessionClaims := Some (userClaims sv (content u)) |})
    /\ ((event_data event = None
         \/ exists data,
              event_data event = Some data
              /\ (lookupUser sv (uid data) = inr None
                  \/ exists why, lookupUser sv (uid data) = inl why)) ->
        response = {| customClaims := []; sessionClaims := None |}).
Proof.
  unfold beforeUserSignedInHandler, signedInAttempt.
  destruct (event_data event) as [data|].
  - destruct (lookupUser sv (uid data)) as [why|[u|]] eqn:E; cbn [await bind];
      eexists; (split; [reflexivity|]); split.
    + intros data' u' [= <-]. rewrite E. discriminate.
    + reflexivity.
    + intros data' u' [= <-]. rewrite E. now intros [= <-].
    + intros [H|[data' [[= <-] [H|[why H]]]]]; rewrite ?E in H; discriminate.
    + intros data' u' [= <-]. rewrite E. discriminate.
    + reflexivity.
  - eexists. split; [reflexivity|]. split; [discriminate | reflexivity].
Qed.

Lemma organizationMismatch_iff sv invitation organization :
  organizationMismatch sv invitation organization = true <->
  requireInvitationOrganizationToMatchSsoProviderId sv = true
  /\ registration_type (invitation_user (content invitation)) <> admin
  /\ registration_organization (invitation_user (content invitation))
     <> Some (id organization).
Proof.
  unfold organizationMismatch. rewrite !andb_true_iff, !negb_true_iff.
  assert (Ht : UserType_eqb (registration_type (invitation_user (content invitation)))
                 admin = false
               <-> registration_type (invitation_user (content invitation)) <> admin).
  { destruct (registration_type (invitation_user (content invitation))); cbn;
      split; congruence. }
  assert (Ho : match registration_organization (invitation_user (content invitation)) with
               | Some o => String.eqb o (id organization)
               | None => false
               end = false
               <-> registration_organization (invitation_user (content invitation))
                   <> Some (id organization)).
  { destruct (registration_organization (invitation_user (content invitation))) as [o|].
    - rewrite String.eqb_neq. split; congruence.
    - split; [discriminate | reflexivity]. }
  rewrite Ht, Ho. tauto.
Qed.

(** X22. The creation handler enrols nobody before every check has passed:
    whenever it calls a service that changes the store, the event carried
    user data and a credential, an email address was found, the
    organization of the provider and the invitation for that address exist
    and the invitation agrees with the organization (or is not required
    to); the first call enrols the invited user under the id of the event,
    and the only further call announces the user that call returned. A
    rejection of either call is passed on and the enrolment is not
    undone. *)
Theorem beforeUserCreated_enrols_after_checks (sv : IdentityServices)
    (event : AuthBlockingEvent) (calls : list ServiceCall)
    (outcome : result BlockingResponse) :
  beforeUserCreatedHandler sv event = (calls, outcome) ->
  calls <> [] ->
  exists data credential emailAddress organization invitation,
    event_data event = Some data
    /\ event_credential event = Some credential
    /\ parseOptionalString (emailCandidate data credential) = Ok (Some emailAddress)
    /\ getOrganizationBySsoProviderId sv (providerId credential)
       = inr (Some organization)
    /\ getInvitationByCode sv emailAddress = inr (Some invitation)
    /\ organizationMismatch sv invitation organization = false
    /\ ((exists why,
            enrollUser sv invitation (uid data) = inl why
            /\ calls = [EnrollUser invitation (uid data)]
            /\ outcome = Throw (StoreError why))
        \/ (exists userDoc,
               enrollUser sv invitation (uid data) = inr userDoc
               /\ calls = [EnrollUser invitation (uid data); UserEnrolled userDoc]
               /\ ((exists why, userEnrolled sv userDoc = inl why
                                /\ outcome = Throw (StoreError why))
                   \/ (userEnrolled sv userDoc = inr tt
                       /\ outcome
                          = Ok {| customClaims :=
                                    registrationClaims sv
                                      (invitation_user (content invitation));
                                  sessionClaims := None |})))).
Proof.
  unfold beforeUserCreatedHandler.
  destruct (event_data event) as [data|] eqn:Hd; [|intros [= <- _]; congruence].
  destruct (event_credential event) as [credential|] eqn:Hc;
    [|intros [= <- _]; congruence].
  destruct (parseOptionalString (emailCandidate data credential))
    as [[emailAddress|]|e] eqn:He; try (intros [= <- _]; congruence).
  destruct (getOrganizationBySsoProviderId sv (providerId credential))
    as [why|[organization|]] eqn:Ho; cbn [await]; try (intros [= <- _]; congruence).
  destruct (getInvitationByCode sv emailAddress) as [why|[invitation|]] eqn:Hi;
    cbn [await]; try (intros [= <- _]; congruence).
  destruct (organizationMismatch sv invitation organization) eqn:Em;
    [intros [= <- _]; congruence|].
  intros H _. exists data, credential, emailAddress, organization, invitation.
  repeat (split; [assumption || reflexivity|]).
  destruct (enrollUser sv invitation (uid data)) as [why|userDoc]; cbn [await] in H.
  - injection H as <- <-. left. exists why. auto.
  - right. exists userDoc. split; [reflexivity|].
    destruct (userEnrolled sv userDoc) as [why|[]]; cbn [await] in H;
      injection H as <- <-; (split; [reflexivity|]).
    + left. exists why. auto.
    + right. auto.
Qed.

Lemma beforeUserCreated_enrols_after_checks_witness :
  exists data credential emailAddress organization invitation,
    event_data sampleEvent = Some data
    /\ event_credential sampleEvent = Some credential
    /\ parseOptionalString (emailCandidate data credential) = Ok (Some emailAddress)
    /\ getOrganizationBySsoProviderId sampleIdentity (providerId credential)
       = inr (Some organization)
    /\ getInvitationByCode sampleIdentity emailAddress = inr (Some invitation)
    /\ organizationMismatch sampleIdentity invitation organization = false.
Proof.
  destruct (beforeUserCreated_enrols_after_checks sampleIdentity sampleEvent
              [EnrollUser sampleInvitation "u1";
               UserEnrolled {| id := "u1";
                               content := {| organization := Some "stanford" |} |}]
              (Ok {| customClaims := [("organization", JsString "stanford")];
                     sessionClaims := None |})
              eq_refl)
    as [data [credential [emailAddress [organization [invitation
         [H1 [H2 [H3 [H4 [H5 [H6 _]]]]]]]]]]].
  - discriminate.
  - exists data, credential, emailAddress, organization, invitation. auto 10.
Defined.

(** X23. The email address is the address of the user record when there is
    one, else the [upn] claim unless it is [null] or absent, else the
    [unique_name] claim. With user data and a credential, a candidate that
    is neither a string nor absent is refused as failing validation, an
    absent candidate as a missing address, in both cases before any
    lookup; without user data the event is refused, and without a
    credential it is let through with empty claims whatever the rest
    holds. *)
Theorem beforeUserCreated_email (sv : IdentityServices) (event : AuthBlockingEvent) :
  (forall data credential,
      (forall address, email data = Some address ->
                       emailCandidate data credential = JsString address)
      /\ (forall claims,
             email data = None -> credential_claims credential = Some claims ->
             emailCandidate data credential
             = match claims "upn" with
               | JsUndefined | JsNull => claims "unique_name"
               | v => v
               end)
      /\ (email data = None -> credential_claims credential = None ->
          emailCandidate data credential = JsUndefined))
  /\ (event_data event = None ->
      beforeUserCreatedHandler sv event
      = ([], Throw (HttpsError "invalid-argument" "User data is required for user.")))
  /\ (forall data,
         event_data event = Some data -> event_credential event = None ->
         beforeUserCreatedHandler sv event
         = ([], Ok {| customClaims := []; sessionClaims := None |}))
  /\ (forall data credential,
         event_data event = Some data -> event_credential event = Some credential ->
         (emailCandidate data credential = JsNull
          \/ emailCandidate data credential = JsOther ->
          beforeUserCreatedHandler sv event
          = ([], Throw (HttpsError "invalid-argument"
                          "Email address validation failed.")))
         /\ (emailCandidate data credential = JsUndefined ->
             beforeUserCreatedHandler sv event
             = ([], Throw (HttpsError "invalid-argument"
                             "Email address is required for user.")))).
Proof.
  split; [|split; [|split]].
  - intros data credential. unfold emailCandidate. repeat split.
    + now intros address ->.
    + intros claims -> ->. unfold nullish. destruct (claims "upn"); reflexivity.
    + now intros -> ->.
  - intros H. unfold beforeUserCreatedHandler. now rewrite H.
  - intros data Hd Hc. unfold beforeUserCreatedHandler. now rewrite Hd, Hc.
  - intros data credential Hd Hc. unfold beforeUserCreatedHandler.
    rewrite Hd, Hc. split.
    + intros [-> | ->]; reflexivity.
    + intros ->. reflexivity.
Qed.

(** X24. An invitation is refused for its organization exactly when the
    flag asks for the match, the invited user is not an administrator and
    the organization of the invitation is not the one of the sign-on
    provider, an invitation without organization counting as different;
    the handler then rejects with a failed precondition and enrols
    nobody. *)
Theorem beforeUserCreated_organization_match (sv : IdentityServices) :
  (forall invitation organization,
      organizationMismatch sv invitation organization = true <->
      requireInvitationOrganizationToMatchSsoProviderId sv = true
      /\ registration_type (invitation_user (content invitation)) <> admin
      /\ registration_organization (invitation_user (content invitation))
         <> Some (id organization))
  /\ (forall event data credential emailAddress organization invitation,
         event_data event = Some data ->
         event_credential event = Some credential ->
         parseOptionalString (emailCandidate data credential) = Ok (Some emailAddress) ->
         getOrganizationBySsoProviderId sv (providerId credential)
         = inr (Some organization) ->
         getInvitationByCode sv emailAddress = inr (Some invitation) ->
         organizationMismatch sv invitation organization = true ->
         beforeUserCreatedHandler sv event
         = ([], Throw (HttpsError "failed-precondition"
                         "Organization does not match invitation code.")))
  /\ (forall event data credential emailAddress,
         event_data event = Some data ->
         event_credential event = Some credential ->
         parseOptionalString (emailCandidate data credential) = Ok (Some emailAddress) ->
         (getOrganizationBySsoProviderId sv (providerId credential) = inr None ->
          beforeUserCreatedHandler sv event
          = ([], Throw (HttpsError "failed-precondition" "Organization not found.")))
         /\ (forall organization,
                getOrganizationBySsoProviderId sv (providerId credential)
                = inr (Some organization) ->
                getInvitationByCode sv emailAddress = inr None ->
                beforeUserCreatedHandler sv event
                = ([], Throw (HttpsError "not-found"
                                "No valid invitation code found for user.")))).
Proof.
  split; [exact (organizationMismatch_iff sv)|]. split.
  - intros event data credential emailAddress organization invitation
      Hd Hc He Ho Hi Hm.
    unfold beforeUserCreatedHandler. rewrite Hd, Hc, He, Ho. cbn [await].
    rewrite Hi. cbn [await]. now rewrite Hm.
  - intros event data credential emailAddress Hd Hc He. split.
    + intros Ho. unfold beforeUserCreatedHandler. now rewrite Hd, Hc, He, Ho.
    + intros organization Ho Hi. unfold beforeUserCreatedHandler.
      rewrite Hd, Hc, He, Ho. cbn [await]. now rewrite Hi.
Qed.

(** * Entry names *)

Lemma append_cancel_l (a b c : string) : a ++ b = a ++ c -> b = c.
Proof.
  induction a as [|x a IH]; cbn; [trivial|]. intros [= H]. now apply IH.
Qed.

Lemma append_cancel_r (s b c : string) : b ++ s = c ++ s -> b = c.
Proof.
  revert c. induction b as [|x b IH]; intros c H.
  - destruct c as [|y c]; [reflexivity|].
    apply (f_equal String.length) in H. cbn in H. rewrite length_append in H. lia.
  - destruct c as [|y c].
    + apply (f_equal String.length) in H. cbn in H. rewrite length_append in H. lia.
    + cbn in H. injection H as -> H. f_equal. now apply IH.
Qed.

Lemma entryName_injective (u a b : string) :
  u ++ "/" ++ a ++ ".csv" = u ++ "/" ++ b ++ ".csv" -> a = b.
Proof.
  intros H. apply append_cancel_l in H. apply (append_cancel_l "/") in H.
  now apply append_cancel_r in H.
Qed.

Lemma userEntryNames_stems K u :
  userEntryNames K u
  = map (fun stem => u ++ "/" ++ stem ++ ".csv")
      (app ["appointments"; "medicationRequests"; "messages"]
         (app (UserObservationCollection_values K)
            ["questionnaireResponses_kccq"; "symptomScores"])).
Proof.
  unfold userEntryNames. rewrite !map_app. reflexivity.
Qed.

(** X25. Within one user the entry names are pairwise different as soon as
    the observation collections are pairwise different and none of them is
    called like one of the five fixed tables; and a collection that occurs
    twice, or is called like a fixed table, gives two entries of the same
    name. Questionnaire entries have different names when the
    questionnaires have different ids. *)
Theorem entry_names_distinct K u :
  (NoDup (UserObservationCollection_values K)
   /\ (forall c, In c (UserObservationCollection_values K) ->
                 ~ In c ["appointments"; "medicationRequests"; "messages";
                         "questionnaireResponses_kccq"; "symptomScores"])
   <-> NoDup (userEntryNames K u))
  /\ (forall qs : list (Document FHIRQuestionnaire),
         NoDup (map id qs) <-> NoDup (names (map questionnaireEntry qs))).
Proof.
  assert (Hinj : forall (f : string -> string) (l : list string),
             (forall a b, f a = f b -> a = b) -> (NoDup l <-> NoDup (map f l))).
  { intros f l Hf. split; [|apply NoDup_map_inv].
    apply NoDup_map_NoDup_ForallPairs. intros a b _ _. apply Hf. }
  split.
  - rewrite userEntryNames_stems.
    rewrite <- (Hinj _ _ (entryName_injective u)).
    set (cs := UserObservationCollection_values K). split.
    + intros [Hnd Hfix].
      apply NoDup_app.
      * repeat constructor; cbn; intros H;
          repeat (destruct H as [H|H]; [discriminate|]); exact H.
      * apply NoDup_app; [assumption| |].
        -- repeat constructor; cbn; intros H;
             repeat (destruct H as [H|H]; [discriminate|]); exact H.
        -- intros c Hc Hin. apply (Hfix c Hc). cbn in Hin |- *. tauto.
      * intros a Ha Hin. apply in_app_or in Hin. destruct Hin as [Hin|Hin].
        -- apply (Hfix a Hin). cbn in Ha |- *. tauto.
        -- cbn in Ha, Hin.
           repeat (destruct Ha as [Ha|Ha];
                   [subst a; repeat (destruct Hin as [Hin|Hin]; [discriminate|]);
                    exact Hin|]).
           exact Ha.
    + intros H. split.
      * apply NoDup_app_remove_l in H. now apply NoDup_app_remove_r in H.
      * intros c Hc Hfix.
        assert (Hperm : forall (l1 l2 l3 : list string) x,
                   NoDup (l1 ++ l2 ++ l3)%list -> In x l2 -> ~ In x l1 /\ ~ In x l3).
        { intros l1 l2 l3 x Hn Hx. split.
          - intros H1. induction l1 as [|y l1 IH]; [destruct H1|].
            cbn in Hn. inversion Hn as [|? ? Hy Hn']; subst.
            destruct H1 as [->|H1]; [|now apply IH].
            apply Hy. apply in_or_app. right. apply in_or_app. now left.
          - intros H3. apply NoDup_app_remove_l in Hn.
            induction l2 as [|y l2 IH]; [destruct Hx|].
            cbn in Hn. inversion Hn as [|? ? Hy Hn']; subst.
            destruct Hx as [->|Hx]; [|now apply IH].
            apply Hy. apply in_or_app. now right. }
        destruct (Hperm _ _ _ c H Hc) as [H1 H3].
        cbn in Hfix, H1, H3. tauto.
  - intros qs. unfold names. rewrite map_map. cbn [name questionnaireEntry].
    rewrite <- (map_map id (fun i => "questionnaire_" ++ i ++ ".csv")).
    apply Hinj. intros a b H.
    apply (append_cancel_l "questionnaire_") in H. now apply append_cancel_r in H.
Qed.
